(** * Scenario lifecycle of the Playwright + Cucumber boilerplate

    A shallow embedding of [support/world.js] (the [CustomWorld] class) and
    [support/hooks.js] (the [Before] and [After] hooks).

    The hooks are sequences of awaited calls on one mutable object, the
    world ([this]).  They are embedded in a state-and-exception monad whose
    state is the world together with the chronological record of every call
    made to an external collaborator (the browser driver, the report's
    attach function, the console).  What a collaborator answers is not in
    this repository: it is a parameter, the [Driver], and every answer may
    depend on all the calls made before it. *)

From Stdlib Require Import String Ascii List Bool Arith Lia.
From stdpp Require Import gmap strings list.

Import ListNotations.
Local Open Scope string_scope.
Local Open Scope list_scope.

(** ** JavaScript values and the two string primitives the hooks use *)

Module JS.

(** The values a result status can be: Cucumber supplies a string; the
    hook applies [String(...)] to whatever it finds. *)
Inductive value : Type :=
| Undefined
| Null
| Bool (b : bool)
| Str (s : string).

(** [String(v)] *)
Definition String_ (v : value) : string :=
  match v with
  | Undefined => "undefined"
  | Null => "null"
  | Bool true => "true"
  | Bool false => "false"
  | Str s => s
  end.

Definition is_upper (c : ascii) : bool :=
  let n := nat_of_ascii c in ((65 <=? n)%nat && (n <=? 90)%nat)%bool.

Definition lower_char (c : ascii) : ascii :=
  if is_upper c then ascii_of_nat (nat_of_ascii c + 32) else c.

(** [s.toLowerCase()] on a byte string: the letters A-Z are mapped to a-z
    and every other byte is kept. *)
Fixpoint toLowerCase (s : string) : string :=
  match s with
  | EmptyString => EmptyString
  | String c s' => String (lower_char c) (toLowerCase s')
  end.

(** [x || d] where [x] is a string-valued property that may be missing:
    [undefined] and the empty string are falsy. *)
Definition or_default (x : option string) (d : string) : string :=
  match x with
  | Some s => if String.eqb s "" then d else s
  | None => d
  end.

(** [x === lit] where [x] is a string-valued property that may be
    missing. *)
Definition strict_eq (x : option string) (lit : string) : bool :=
  match x with
  | Some s => String.eqb s lit
  | None => false
  end.

(** A template-literal hole [${x}] for a property that may be missing. *)
Definition show (x : option string) : string :=
  match x with
  | Some s => s
  | None => "undefined"
  end.

Definition show_bool (b : bool) : string := if b then "true" else "false".

End JS.

(** ** Handles, errors and calls to the outside *)

Inductive BrowserType : Type := BrowserTypeH (name : string).
Inductive Browser : Type := BrowserH (id : nat).
Inductive BrowserContext : Type := ContextH (id : nat).
Inductive Page : Type := PageH (id : nat).
Inductive AttachFn : Type := AttachH (id : nat).

Definition Buffer : Type := list Byte.byte.

Inductive error : Type :=
| Error (message : string)        (* [new Error(message)] thrown by this code *)
| TypeError (message : string)    (* raised by the language itself *)
| DriverError (message : string). (* a rejection coming from a collaborator *)

Inductive outcome (A : Type) : Type :=
| Ok (a : A)
| Throw (e : error).

Arguments Ok {A} a.
Arguments Throw {A} e.

Definition is_ok {A} (o : outcome A) : bool :=
  match o with Ok _ => true | Throw _ => false end.

Inductive call : Type :=
| Launch (engine : string) (headless : bool)
| NewContext (b : Browser)
| NewPage (c : BrowserContext)
| Screenshot (p : Page) (fullPage : bool)
| Goto (p : Page) (url : string) (options : list (string * JS.value))
| WaitForLoadState (p : Page) (state : string) (timeout : Z)
| ClosePage (p : Page)
| CloseContext (c : BrowserContext)
| CloseBrowser (b : Browser)
| Attach (a : AttachFn) (data : Buffer) (mediaType : string)
| ConsoleLog (line : string).

(** One entry of the record: the call and whether it resolved. *)
Record event : Type := Ev { ev_call : call; ev_ok : bool }.

Definition history : Type := list event.

(** The collaborators.  The first two fields are the property lookup
    [playwright[name]]: [playwright name] is the engine found under that
    name, a value with a [launch] method; when there is none,
    [playwright_other name] tells whether the object has some other value
    under that name (its own, as [devices], or inherited, as
    [constructor]) or nothing at all.  The other fields answer a call
    given everything that was called before. *)
Record Driver : Type := {
  playwright : string -> option BrowserType;
  playwright_other : string -> bool;
  launch : history -> BrowserType -> bool -> outcome Browser;
  newContext : history -> Browser -> outcome BrowserContext;
  newPage : history -> BrowserContext -> outcome Page;
  screenshot : history -> Page -> bool -> outcome Buffer;
  page_goto : history -> Page -> string -> list (string * JS.value) -> outcome unit;
  waitForLoadState : history -> Page -> string -> Z -> outcome unit;
  page_close : history -> Page -> outcome unit;
  context_close : history -> BrowserContext -> outcome unit;
  browser_close : history -> Browser -> outcome unit;
  attach_call : history -> AttachFn -> Buffer -> string -> outcome unit
}.

(** ** The world and the scenario *)

Record World : Type := {
  browser : option Browser;
  context : option BrowserContext;
  page : option Page;
  attach : option AttachFn
}.

Record Result : Type := { status : JS.value }.

Record Scenario : Type := {
  pickle_name : string;            (* [scenario.pickle.name] *)
  result : option Result           (* [scenario.result], may be missing *)
}.

(** ** The monad: world, record of calls, exceptions *)

Record St : Type := { this : World; log : history }.

Definition M (A : Type) : Type := St -> outcome A * St.

Definition ret {A} (a : A) : M A := fun s => (Ok a, s).

Definition throw {A} (e : error) : M A := fun s => (Throw e, s).

Definition bind {A B} (m : M A) (k : A -> M B) : M B :=
  fun s =>
    match m s with
    | (Ok a, s') => k a s'
    | (Throw e, s') => (Throw e, s')
    end.

Notation "x <- m ;; k" := (bind m (fun x => k))
  (at level 62, m at level 50, right associativity).
Notation "m ;;; k" := (bind m (fun _ => k))
  (at level 62, right associativity).

Definition get_this : M World := fun s => (Ok (this s), s).

Definition modify_this (f : World -> World) : M unit :=
  fun s => (Ok tt, {| this := f (this s); log := log s |}).

(** [await collaborator(...)]: ask the driver, record the call. *)
Definition invoke {A} (c : call) (answer : history -> outcome A) : M A :=
  fun s =>
    let o := answer (log s) in
    (o, {| this := this s; log := log s ++ [Ev c (is_ok o)] |}).

Definition set_browser (b : option Browser) (w : World) : World :=
  {| browser := b; context := context w; page := page w; attach := attach w |}.
Definition set_context (c : option BrowserContext) (w : World) : World :=
  {| browser := browser w; context := c; page := page w; attach := attach w |}.
Definition set_page (p : option Page) (w : World) : World :=
  {| browser := browser w; context := context w; page := p; attach := attach w |}.
Definition set_attach (a : option AttachFn) (w : World) : World :=
  {| browser := browser w; context := context w; page := page w; attach := a |}.

(** [if (h) await close(h)] *)
Definition when_some {A} (h : option A) (k : A -> M unit) : M unit :=
  match h with
  | Some x => k x
  | None => ret tt
  end.

(** ** world.js *)

Module CustomWorld.

Definition no_page : error := Error "No page available on World".

(** [constructor({ attach })] *)
Definition constructor (attach : option AttachFn) : World :=
  {| browser := None; context := None; page := None; attach := attach |}.

Section Methods.
Variable drv : Driver.

(** [async takeAndAttachScreenshot(name = 'screenshot.png')] *)
Definition takeAndAttachScreenshot (name : option string) : M Buffer :=
  let name := default "screenshot.png" name in
  w <- get_this ;;
  match page w with
  | None => throw no_page
  | Some p =>
      buffer <- invoke (Screenshot p true) (fun h => screenshot drv h p true) ;;
      w <- get_this ;;
      match attach w with
      | Some a =>
          invoke (Attach a buffer "image/png")
                 (fun h => attach_call drv h a buffer "image/png")
      | None => ret tt
      end ;;;
      ret buffer
  end.

(** [async goto(url, options = {})] *)
Definition goto (url : string) (options : option (list (string * JS.value)))
  : M unit :=
  let options := default [] options in
  w <- get_this ;;
  match page w with
  | None => throw no_page
  | Some p =>
      invoke (Goto p url options) (fun h => page_goto drv h p url options) ;;;
      invoke (WaitForLoadState p "load" 10000%Z)
             (fun h => waitForLoadState drv h p "load" 10000%Z)
  end.

End Methods.

End CustomWorld.

(** ** hooks.js *)

Section Hooks.
Variable drv : Driver.
(** [process.env] *)
Variable env : gmap string string.

Definition newline : string := String (ascii_of_nat 10) EmptyString.

Definition console_log (line : string) : M unit :=
  invoke (ConsoleLog line) (fun _ => Ok tt).

(** [process.env.BROWSER || 'chromium'] *)
Definition browserName : string := JS.or_default (env !! "BROWSER") "chromium".

(** [process.env.HEADLESS === 'true'] *)
Definition headless : bool := JS.strict_eq (env !! "HEADLESS") "true".

(** [playwright[browserName].launch(...)]: the lookup comes first.  When
    it finds nothing, reading [launch] of [undefined] raises; when it finds
    a value that is no engine, calling its missing [launch] raises.  In
    both cases no call is made. *)
Definition launch_engine : M Browser :=
  match playwright drv browserName with
  | None =>
      throw (TypeError
               (if playwright_other drv browserName
                then "playwright[browserName].launch is not a function"
                else "Cannot read properties of undefined (reading 'launch')"))
  | Some bt => invoke (Launch browserName headless) (fun h => launch drv h bt headless)
  end.

Definition Before (scenario : Scenario) : M unit :=
  b <- launch_engine ;;
  modify_this (set_browser (Some b)) ;;;
  c <- invoke (NewContext b) (fun h => newContext drv h b) ;;
  modify_this (set_context (Some c)) ;;;
  p <- invoke (NewPage c) (fun h => newPage drv h c) ;;
  modify_this (set_page (Some p)) ;;;
  w <- get_this ;;
  modify_this (set_attach (attach w)) ;;;
  console_log (newline +:+ "--- Executing scenario: " +:+ pickle_name scenario +:+ " ---") ;;;
  console_log ("Environment: " +:+ JS.show (env !! "ENV")) ;;;
  console_log ("Base URL: " +:+ JS.show (env !! "BASE_URL")) ;;;
  console_log ("Browser launched: " +:+ browserName
               +:+ " (headless: " +:+ JS.show_bool headless +:+ ")").

(** [scenario.result && String(scenario.result.status).toLowerCase() === 'failed'] *)
Definition is_failed (scenario : Scenario) : bool :=
  match result scenario with
  | None => false
  | Some r => String.eqb (JS.toLowerCase (JS.String_ (status r))) "failed"
  end.

(** The first statement of [After]. *)
Definition captureEvidence (scenario : Scenario) : M unit :=
  if is_failed scenario
  then CustomWorld.takeAndAttachScreenshot drv
         (Some (pickle_name scenario +:+ "-failure-screenshot.png")) ;;;
       ret tt
  else ret tt.

(** The last three statements of [After]. *)
Definition releaseResources : M unit :=
  w <- get_this ;;
  when_some (page w) (fun p => invoke (ClosePage p) (fun h => page_close drv h p)) ;;;
  w <- get_this ;;
  when_some (context w) (fun c => invoke (CloseContext c) (fun h => context_close drv h c)) ;;;
  w <- get_this ;;
  when_some (browser w) (fun b => invoke (CloseBrowser b) (fun h => browser_close drv h b)).

Definition After (scenario : Scenario) : M unit :=
  captureEvidence scenario ;;;
  releaseResources.

End Hooks.

(** ** Running a hook and reading the record *)

Definition run {A} (m : M A) (w : World) (h : history) : outcome A * St :=
  m {| this := w; log := h |}.

(** The calls made since the record was [h]. *)
Definition events_since (h : history) (s : St) : history :=
  drop (length h) (log s).

(** The calls a hook makes when started on world [w] with record [h]. *)
Definition trace_of {A} (m : M A) (w : World) (h : history) : history :=
  events_since h (snd (run m w h)).

(** The world a hook leaves behind. *)
Definition world_after {A} (m : M A) (w : World) (h : history) : World :=
  this (snd (run m w h)).

(** How a hook ends. *)
Definition ending {A} (m : M A) (w : World) (h : history) : outcome A :=
  fst (run m w h).

Definition is_close (c : call) : bool :=
  match c with
  | ClosePage _ | CloseContext _ | CloseBrowser _ => true
  | _ => false
  end.

(** The release calls of a record, in the order they were made. *)
Definition close_calls (t : history) : list call :=
  List.filter is_close (map ev_call t).

(** What a full release of the world [w] consists of. *)
Definition release_plan (w : World) : list call :=
  option_list (ClosePage <$> page w)
  ++ option_list (CloseContext <$> context w)
  ++ option_list (CloseBrowser <$> browser w).

(** The artifacts that reached the report: the attach calls that resolved. *)
Fixpoint attachments (t : history) : list (Buffer * string) :=
  match t with
  | [] => []
  | Ev (Attach _ data mediaType) true :: t' => (data, mediaType) :: attachments t'
  | _ :: t' => attachments t'
  end.

(** The captures taken, with their [fullPage] option. *)
Fixpoint captures (t : history) : list (Page * bool) :=
  match t with
  | [] => []
  | Ev (Screenshot p fullPage) _ :: t' => (p, fullPage) :: captures t'
  | _ :: t' => captures t'
  end.

(** ** Concrete collaborators used in the examples *)

Definition png_magic : Buffer :=
  [Byte.x89; Byte.x50; Byte.x4e; Byte.x47].

Definition engines (name : string) : option BrowserType :=
  if String.eqb name "chromium" then Some (BrowserTypeH name)
  else if String.eqb name "firefox" then Some (BrowserTypeH name)
  else if String.eqb name "webkit" then Some (BrowserTypeH name)
  else None.

(** Names the playwright object answers with a value that is no engine. *)
Definition non_engine_members (name : string) : bool :=
  existsb (String.eqb name)
    ["devices"; "selectors"; "request"; "errors"; "_electron"; "_android";
     "constructor"; "toString"; "valueOf"; "hasOwnProperty"].

(** Every call resolves. *)
Definition obliging_driver : Driver := {|
  playwright := engines;
  playwright_other := non_engine_members;
  launch := fun h _ _ => Ok (BrowserH (length h));
  newContext := fun h _ => Ok (ContextH (length h));
  newPage := fun h _ => Ok (PageH (length h));
  screenshot := fun _ _ _ => Ok png_magic;
  page_goto := fun _ _ _ _ => Ok tt;
  waitForLoadState := fun _ _ _ _ => Ok tt;
  page_close := fun _ _ => Ok tt;
  context_close := fun _ _ => Ok tt;
  browser_close := fun _ _ => Ok tt;
  attach_call := fun _ _ _ _ => Ok tt
|}.

Definition page_eqb (p q : Page) : bool :=
  match p, q with PageH i, PageH j => Nat.eqb i j end.

Definition closed_in (h : history) (p : Page) : bool :=
  existsb (fun e => match ev_call e with
                    | ClosePage q => page_eqb p q && ev_ok e
                    | _ => false
                    end) h.


Definition target_closed : error :=
  DriverError "Target page, context or browser has been closed".

(** A page that was closed rejects every later call. *)
Definition strict_driver : Driver := {|
  playwright := engines;
  playwright_other := non_engine_members;
  launch := fun h _ _ => Ok (BrowserH (length h));
  newContext := fun h _ => Ok (ContextH (length h));
  newPage := fun h _ => Ok (PageH (length h));
  screenshot := fun h p _ => if closed_in h p then Throw target_closed else Ok png_magic;
  page_goto := fun h p _ _ => if closed_in h p then Throw target_closed else Ok tt;
  waitForLoadState := fun h p _ _ => if closed_in h p then Throw target_closed else Ok tt;
  page_close := fun _ _ => Ok tt;
  context_close := fun _ _ => Ok tt;
  browser_close := fun _ _ => Ok tt;
  attach_call := fun _ _ _ _ => Ok tt
|}.

(** Closing the page is rejected; everything else resolves. *)
Definition stuck_page_driver : Driver := {|
  playwright := engines;
  playwright_other := non_engine_members;
  launch := fun h _ _ => Ok (BrowserH (length h));
  newContext := fun h _ => Ok (ContextH (length h));
  newPage := fun h _ => Ok (PageH (length h));
  screenshot := fun _ _ _ => Ok png_magic;
  page_goto := fun _ _ _ _ => Ok tt;
  waitForLoadState := fun _ _ _ _ => Ok tt;
  page_close := fun _ _ => Throw (DriverError "page.close: Protocol error");
  context_close := fun _ _ => Ok tt;
  browser_close := fun _ _ => Ok tt;
  attach_call := fun _ _ _ _ => Ok tt
|}.

Definition scenario_with (st : string) : Scenario :=
  {| pickle_name := "Test site login"; result := Some {| status := JS.Str st |} |}.

Definition ready_world : World :=
  {| browser := Some (BrowserH 0); context := Some (ContextH 1);
     page := Some (PageH 2); attach := Some (AttachH 0) |}.

Definition world_without_attach : World :=
  {| browser := Some (BrowserH 0); context := Some (ContextH 1);
     page := Some (PageH 2); attach := None |}.

Definition is_launch (c : call) : bool :=
  match c with Launch _ _ => true | _ => false end.
Definition is_newContext (c : call) : bool :=
  match c with NewContext _ => true | _ => false end.
Definition is_newPage (c : call) : bool :=
  match c with NewPage _ => true | _ => false end.

(** How many calls of one kind a record holds. *)
Definition count_calls (f : call -> bool) (t : history) : nat :=
  length (List.filter f (map ev_call t)).

(** The calls of a record that create a handle. *)
Definition creation_calls (t : history) : list call :=
  List.filter (fun c => is_launch c || is_newContext c || is_newPage c) (map ev_call t).

(** ** Further readings of the record *)

(** The lines written to the console, in order. *)
Fixpoint console_lines (t : history) : list string :=
  match t with
  | [] => []
  | Ev (ConsoleLog line) _ :: t' => line :: console_lines t'
  | _ :: t' => console_lines t'
  end.

(** The calls [Before] is written to make. *)
Definition is_setup_call (c : call) : bool :=
  match c with
  | Launch _ _ | NewContext _ | NewPage _ | ConsoleLog _ => true
  | _ => false
  end.

(** The calls [After] is written to make. *)
Definition is_teardown_call (c : call) : bool :=
  match c with
  | Screenshot _ _ | Attach _ _ _ | ClosePage _ | CloseContext _ | CloseBrowser _ => true
  | _ => false
  end.

(** The four lines [Before] logs once the handles are in place. *)
Definition setup_lines (env : gmap string string) (scenario : Scenario) : list string :=
  [ newline +:+ "--- Executing scenario: " +:+ pickle_name scenario +:+ " ---";
    "Environment: " +:+ JS.show (env !! "ENV");
    "Base URL: " +:+ JS.show (env !! "BASE_URL");
    "Browser launched: " +:+ browserName env
      +:+ " (headless: " +:+ JS.show_bool (headless env) +:+ ")" ].

(** The browser starts, but no session can be opened in it. *)
Definition no_session_driver : Driver := {|
  playwright := engines;
  playwright_other := non_engine_members;
  launch := fun h _ _ => Ok (BrowserH (length h));
  newContext := fun _ _ => Throw (DriverError "browser.newContext: Target closed");
  newPage := fun h _ => Ok (PageH (length h));
  screenshot := fun _ _ _ => Ok png_magic;
  page_goto := fun _ _ _ _ => Ok tt;
  waitForLoadState := fun _ _ _ _ => Ok tt;
  page_close := fun _ _ => Ok tt;
  context_close := fun _ _ => Ok tt;
  browser_close := fun _ _ => Ok tt;
  attach_call := fun _ _ _ _ => Ok tt
|}.

(** The report refuses attachments; the browser side resolves. *)
Definition closed_report_driver : Driver := {|
  playwright := engines;
  playwright_other := non_engine_members;
  launch := fun h _ _ => Ok (BrowserH (length h));
  newContext := fun h _ => Ok (ContextH (length h));
  newPage := fun h _ => Ok (PageH (length h));
  screenshot := fun _ _ _ => Ok png_magic;
  page_goto := fun _ _ _ _ => Ok tt;
  waitForLoadState := fun _ _ _ _ => Ok tt;
  page_close := fun _ _ => Ok tt;
  context_close := fun _ _ => Ok tt;
  browser_close := fun _ _ => Ok tt;
  attach_call := fun _ _ _ _ =>
    Throw (DriverError "Cannot attach when a step/hook is not running")
|}.

(** Navigation times out; everything else resolves. *)
Definition unreachable_site_driver : Driver := {|
  playwright := engines;
  playwright_other := non_engine_members;
  launch := fun h _ _ => Ok (BrowserH (length h));
  newContext := fun h _ => Ok (ContextH (length h));
  newPage := fun h _ => Ok (PageH (length h));
  screenshot := fun _ _ _ => Ok png_magic;
  page_goto := fun _ _ _ _ => Throw (DriverError "page.goto: net::ERR_NAME_NOT_RESOLVED");
  waitForLoadState := fun _ _ _ _ => Ok tt;
  page_close := fun _ _ => Ok tt;
  context_close := fun _ _ => Ok tt;
  browser_close := fun _ _ => Ok tt;
  attach_call := fun _ _ _ _ => Ok tt
|}.

(** ** Comparing strings up to letter case *)

(** Two bytes are the same letter up to case. *)
Definition same_letter (c d : ascii) : Prop :=
  c = d
  \/ (JS.is_upper c = true /\ nat_of_ascii d = nat_of_ascii c + 32)
  \/ (JS.is_upper d = true /\ nat_of_ascii c = nat_of_ascii d + 32).

Definition eq_ignore_case (s t : string) : Prop :=
  Forall2 same_letter (list_ascii_of_string s) (list_ascii_of_string t).

Fixpoint no_upper (s : string) : bool :=
  match s with
  | EmptyString => true
  | String c s' => negb (JS.is_upper c) && no_upper s'
  end.

(** ** Proof support *)

Lemma events_since_app (w : World) (h t : history) :
  events_since h {| this := w; log := h ++ t |} = t.
Proof. unfold events_since; simpl. apply drop_app_length. Qed.

Lemma events_since_nil (w : World) (h : history) :
  events_since h {| this := w; log := h |} = [].
Proof. unfold events_since; simpl. apply drop_all. Qed.

Lemma close_calls_app (t u : history) :
  close_calls (t ++ u) = close_calls t ++ close_calls u.
Proof. unfold close_calls. rewrite map_app. apply List.filter_app. Qed.

Lemma attachments_app (t u : history) :
  attachments (t ++ u) = attachments t ++ attachments u.
Proof.
  induction t as [|[c ok] t IH]; simpl; [reflexivity|].
  destruct c; try exact IH. destruct ok; [simpl; f_equal|]; exact IH.
Qed.

Lemma captures_app (t u : history) :
  captures (t ++ u) = captures t ++ captures u.
Proof.
  induction t as [|[c ok] t IH]; simpl; [reflexivity|].
  destruct c; try exact IH. simpl; f_equal; exact IH.
Qed.

Ltac unfold_hooks :=
  unfold trace_of, world_after, ending, run, After, Before, captureEvidence,
    releaseResources, launch_engine, console_log,
    CustomWorld.takeAndAttachScreenshot, CustomWorld.goto,
    when_some, bind, invoke, get_this, modify_this, ret, throw in *;
  simpl in *.

Ltac tidy_log :=
  repeat rewrite <- app_assoc; simpl;
  repeat rewrite events_since_app;
  repeat rewrite events_since_nil; simpl.

(** Split on what the driver answered to the calls in the goal. *)
Ltac case_driver drv :=
  repeat match goal with
         | |- context [screenshot drv ?h ?p ?f] =>
             destruct (screenshot drv h p f) as [?buf|?e] eqn:?; simpl
         | |- context [attach_call drv ?h ?a ?b ?m] =>
             destruct (attach_call drv h a b m) as [[]|?e] eqn:?; simpl
         | |- context [page_close drv ?h ?p] =>
             destruct (page_close drv h p) as [[]|?e] eqn:?; simpl
         | |- context [context_close drv ?h ?c] =>
             destruct (context_close drv h c) as [[]|?e] eqn:?; simpl
         | |- context [browser_close drv ?h ?b] =>
             destruct (browser_close drv h b) as [[]|?e] eqn:?; simpl
         | |- context [launch drv ?h ?t ?f] =>
             destruct (launch drv h t f) as [?b|?e] eqn:?; simpl
         | |- context [newContext drv ?h ?b] =>
             destruct (newContext drv h b) as [?c|?e] eqn:?; simpl
         | |- context [newPage drv ?h ?c] =>
             destruct (newPage drv h c) as [?p|?e] eqn:?; simpl
         | |- context [page_goto drv ?h ?p ?u ?o] =>
             destruct (page_goto drv h p u o) as [[]|?e] eqn:?; simpl
         | |- context [waitForLoadState drv ?h ?p ?s ?t] =>
             destruct (waitForLoadState drv h p s t) as [[]|?e] eqn:?; simpl
         end.

(** Close the cases in which nothing can have been attached. *)
Ltac no_artifact :=
  repeat split; try lia; try discriminate; try contradiction;
  try (intros (? & ? & ? & ? & ? & ? & ? & ?); congruence).

Section Teardown.
Variable drv : Driver.

(** Neither method nor hook of the teardown writes a field of the world,
    and each only appends to the record. *)
Lemma takeAndAttachScreenshot_state (name : option string) (w : World) (h : history) :
  snd (run (CustomWorld.takeAndAttachScreenshot drv name) w h)
  = {| this := w; log := h ++ trace_of (CustomWorld.takeAndAttachScreenshot drv name) w h |}.
Proof.
  destruct w as [b c [p|] [a|]]; unfold_hooks; case_driver drv; tidy_log;
    rewrite ?app_nil_r; reflexivity.
Qed.

Lemma captureEvidence_state (sc : Scenario) (w : World) (h : history) :
  snd (run (captureEvidence drv sc) w h)
  = {| this := w; log := h ++ trace_of (captureEvidence drv sc) w h |}.
Proof.
  unfold captureEvidence at 1 2. destruct (is_failed sc).
  - unfold trace_of, run, bind.
    pose proof (takeAndAttachScreenshot_state
                  (Some (pickle_name sc +:+ "-failure-screenshot.png")) w h) as E.
    unfold trace_of, run in E.
    destruct (CustomWorld.takeAndAttachScreenshot drv _ _) as [[buf|e] s]; simpl in *;
      exact E.
  - unfold trace_of, run, ret; simpl. rewrite events_since_nil, app_nil_r. reflexivity.
Qed.

Lemma releaseResources_state (w : World) (h : history) :
  snd (run (releaseResources drv) w h)
  = {| this := w; log := h ++ trace_of (releaseResources drv) w h |}.
Proof.
  destruct w as [[b|] [c|] [p|] a]; unfold_hooks; case_driver drv; tidy_log;
    rewrite ?app_nil_r; reflexivity.
Qed.

(** [After] is the capture followed, when the capture did not throw, by
    the release. *)
Lemma After_run (sc : Scenario) (w : World) (h : history) :
  run (After drv sc) w h
  = match ending (captureEvidence drv sc) w h with
    | Ok _ => run (releaseResources drv) w (h ++ trace_of (captureEvidence drv sc) w h)
    | Throw e => (Throw e, {| this := w; log := h ++ trace_of (captureEvidence drv sc) w h |})
    end.
Proof.
  unfold After, bind, run at 1.
  change (captureEvidence drv sc {| this := w; log := h |})
    with (run (captureEvidence drv sc) w h).
  rewrite (surjective_pairing (run (captureEvidence drv sc) w h)).
  rewrite captureEvidence_state. fold (ending (captureEvidence drv sc) w h).
  destruct (ending (captureEvidence drv sc) w h); reflexivity.
Qed.

Lemma After_trace (sc : Scenario) (w : World) (h : history) :
  trace_of (After drv sc) w h
  = trace_of (captureEvidence drv sc) w h
    ++ match ending (captureEvidence drv sc) w h with
       | Ok _ => trace_of (releaseResources drv) w (h ++ trace_of (captureEvidence drv sc) w h)
       | Throw _ => []
       end.
Proof.
  unfold trace_of at 1. rewrite After_run.
  destruct (ending (captureEvidence drv sc) w h).
  - rewrite releaseResources_state. rewrite <- app_assoc. apply events_since_app.
  - simpl. rewrite events_since_app, app_nil_r. reflexivity.
Qed.

Lemma After_world (sc : Scenario) (w : World) (h : history) :
  world_after (After drv sc) w h = w.
Proof.
  unfold world_after. rewrite After_run.
  destruct (ending (captureEvidence drv sc) w h); [|reflexivity].
  rewrite releaseResources_state. reflexivity.
Qed.

Lemma captureEvidence_no_close (sc : Scenario) (w : World) (h : history) :
  close_calls (trace_of (captureEvidence drv sc) w h) = [].
Proof.
  unfold captureEvidence. destruct (is_failed sc); destruct w as [b c [p|] [a|]];
    unfold_hooks; case_driver drv; tidy_log; reflexivity.
Qed.

Lemma releaseResources_prefix (w : World) (h : history) :
  close_calls (trace_of (releaseResources drv) w h) `prefix_of` release_plan w.
Proof.
  destruct w as [[b|] [c|] [p|] a]; unfold release_plan; unfold_hooks;
    case_driver drv; tidy_log; unfold close_calls; simpl;
    solve [reflexivity | eexists; reflexivity].
Qed.

Lemma releaseResources_complete (w : World) (h : history) :
  ending (releaseResources drv) w h = Ok tt ->
  close_calls (trace_of (releaseResources drv) w h) = release_plan w.
Proof.
  destruct w as [[b|] [c|] [p|] a]; unfold release_plan; unfold_hooks;
    case_driver drv; tidy_log; intros E; solve [reflexivity | discriminate E].
Qed.

(** The release raises only when the driver rejected one of the closes it
  was asked for; a null handle never makes it raise. *)
Lemma releaseResources_raises_only_on_rejection (w : World) (h : history) :
ending (releaseResources drv) w h = Ok tt
\/ exists c, In c (release_plan w)
             /\ In (Ev c false) (trace_of (releaseResources drv) w h).
Proof.
destruct w as [[b|] [c|] [p|] a]; unfold release_plan; unfold_hooks;
  case_driver drv; tidy_log;
  solve [left; reflexivity
        | right; eexists; split; [|simpl; eauto 8]; simpl; eauto 8].
Qed.

End Teardown.

(** ** The failed-status test *)

Lemma is_upper_bound (c : ascii) :
  JS.is_upper c = true -> 65 <= nat_of_ascii c <= 90.
Proof.
  unfold JS.is_upper. cbv zeta. intros H. apply andb_true_iff in H as [H1 H2].
  apply Nat.leb_le in H1, H2. lia.
Qed.

Lemma lower_char_same_letter (c d : ascii) :
  JS.is_upper d = false -> (JS.lower_char c = d <-> same_letter c d).
Proof.
  intros Hd. unfold JS.lower_char, same_letter. split.
  - destruct (JS.is_upper c) eqn:Hc; intros E.
    + right; left. split; [reflexivity|]. subst d.
      apply is_upper_bound in Hc. apply nat_ascii_embedding. lia.
    + left; exact E.
  - intros [E | [[Hc E] | [Hd' _]]].
    + subst d. rewrite Hd. reflexivity.
    + rewrite Hc, <- E. apply ascii_nat_embedding.
    + congruence.
Qed.

Lemma toLowerCase_eq_ignore_case (t s : string) :
  no_upper t = true -> (JS.toLowerCase s = t <-> eq_ignore_case s t).
Proof.
  unfold eq_ignore_case. revert t.
  induction s as [|c s IH]; intros [|d t] Ht; simpl in *.
  - split; [constructor | reflexivity].
  - split; [discriminate | intros H; inversion H].
  - split; [discriminate | intros H; inversion H].
  - apply andb_true_iff in Ht as [Hd Ht]. apply negb_true_iff in Hd.
    specialize (IH t Ht). split.
    + intros E. injection E as E1 E2. constructor.
      * apply lower_char_same_letter; assumption.
      * apply IH, E2.
    + intros H. inversion H as [|? ? ? ? H1 H2]; subst. f_equal.
      * apply lower_char_same_letter; assumption.
      * apply IH, H2.
Qed.

Lemma is_failed_spec (sc : Scenario) :
  is_failed sc = true
  <-> exists r, result sc = Some r /\ eq_ignore_case (JS.String_ (status r)) "failed".
Proof.
  unfold is_failed. destruct (result sc) as [r|].
  - rewrite String.eqb_eq, (toLowerCase_eq_ignore_case "failed") by reflexivity.
    split; [eauto | intros (r' & [= <-] & H); exact H].
  - split; [discriminate | intros (r & [=] & _)].
Qed.

Example is_failed_cucumber_FAILED : is_failed (scenario_with "FAILED") = true.
Proof. reflexivity. Qed.

Example is_failed_mixed_case : is_failed (scenario_with "Failed") = true.
Proof. reflexivity. Qed.

Example is_failed_PASSED : is_failed (scenario_with "PASSED") = false.
Proof. reflexivity. Qed.

Example is_failed_undefined_status :
  is_failed {| pickle_name := "x"; result := Some {| status := JS.Undefined |} |} = false.
Proof. reflexivity. Qed.

Example is_failed_no_result :
  is_failed {| pickle_name := "x"; result := None |} = false.
Proof. reflexivity. Qed.

(** ** Teardown: capture branch and release order *)

Section TeardownClaims.
Variable drv : Driver.

Lemma After_not_failed (sc : Scenario) (w : World) (h : history) :
  is_failed sc = false ->
  run (After drv sc) w h = run (releaseResources drv) w h.
Proof.
  intros F. rewrite After_run. unfold ending, trace_of, captureEvidence.
  rewrite F. unfold run, ret; simpl. rewrite events_since_nil, app_nil_r. reflexivity.
Qed.

(** The release makes release calls only. *)
Lemma releaseResources_only_closes (w : World) (h : history) :
  close_calls (trace_of (releaseResources drv) w h)
  = map ev_call (trace_of (releaseResources drv) w h).
Proof.
  destruct w as [[b|] [c|] [p|] a]; unfold_hooks; case_driver drv; tidy_log; reflexivity.
Qed.

Lemma releaseResources_no_evidence (w : World) (h : history) :
  attachments (trace_of (releaseResources drv) w h) = []
  /\ captures (trace_of (releaseResources drv) w h) = [].
Proof.
  destruct w as [[b|] [c|] [p|] a]; unfold_hooks; case_driver drv; tidy_log;
    split; reflexivity.
Qed.

End TeardownClaims.

(** C9. When [scenario.result] is missing, [After] skips the capture branch
    altogether: it behaves exactly as the release alone, takes no screenshot
    and attaches nothing.  The test guarding the branch holds exactly when a
    result is present and the stringified status equals "failed" up to
    letter case. *)
Theorem After_absent_result_skips_capture
  (drv : Driver) (sc : Scenario) (w : World) (h : history) :
  (result sc = None ->
     run (After drv sc) w h = run (releaseResources drv) w h
     /\ captures (trace_of (After drv sc) w h) = []
     /\ attachments (trace_of (After drv sc) w h) = [])
  /\ (is_failed sc = true
      <-> exists r, result sc = Some r
                    /\ eq_ignore_case (JS.String_ (status r)) "failed").
Proof.
  split; [|apply is_failed_spec].
  intros R.
  assert (F : is_failed sc = false) by (unfold is_failed; rewrite R; reflexivity).
  pose proof (After_not_failed drv sc w h F) as E.
  unfold trace_of. rewrite E. fold (trace_of (releaseResources drv) w h).
  destruct (releaseResources_no_evidence drv w h) as [A C]. auto.
Qed.

(** C6 (what the code does instead).  A setup that fails before creating
    any handle, because no engine is found under the configured name, makes
    no call and leaves the world as constructed.  The teardown that
    follows, with the failed status such a scenario has, does not reach the
    release statements: it raises "No page available on World" from the
    capture, so the release is not performed at all, not even as a
    no-op. *)
Theorem After_after_failed_setup_raises
  (drv : Driver) (env : gmap string string) (sc sc' : Scenario)
  (a : option AttachFn) (h : history) :
  playwright drv (browserName env) = None ->
  is_failed sc' = true ->
  let s := snd (run (Before drv env sc) (CustomWorld.constructor a) h) in
  is_ok (ending (Before drv env sc) (CustomWorld.constructor a) h) = false
  /\ s = {| this := CustomWorld.constructor a; log := h |}
  /\ run (After drv sc') (this s) (log s) = (Throw CustomWorld.no_page, s)
  /\ trace_of (After drv sc') (this s) (log s) = [].
Proof.
  intros E F s.
  assert (S : s = {| this := CustomWorld.constructor a; log := h |}).
  { subst s. unfold_hooks. rewrite E. reflexivity. }
  assert (B : is_ok (ending (Before drv env sc) (CustomWorld.constructor a) h) = false).
  { unfold_hooks. rewrite E. reflexivity. }
  assert (R : run (After drv sc') (CustomWorld.constructor a) h
              = (Throw CustomWorld.no_page,
                 {| this := CustomWorld.constructor a; log := h |})).
  { rewrite After_run. unfold ending, trace_of, captureEvidence. rewrite F.
    unfold_hooks. rewrite events_since_nil, app_nil_r. reflexivity. }
  rewrite S. cbn [this log]. split; [exact B|]. split; [reflexivity|].
  split; [exact R|]. unfold trace_of. rewrite R. cbn [snd]. apply events_since_nil.
Qed.

Lemma After_after_failed_setup_raises_witness :
  let s := snd (run (Before obliging_driver {[ "BROWSER" := "opera" ]}
                       (scenario_with "UNKNOWN"))
                    (CustomWorld.constructor (Some (AttachH 0))) []) in
  is_ok (ending (Before obliging_driver {[ "BROWSER" := "opera" ]}
                   (scenario_with "UNKNOWN"))
                (CustomWorld.constructor (Some (AttachH 0))) []) = false
  /\ s = {| this := CustomWorld.constructor (Some (AttachH 0)); log := [] |}
  /\ run (After obliging_driver (scenario_with "FAILED")) (this s) (log s)
     = (Throw CustomWorld.no_page, s)
  /\ trace_of (After obliging_driver (scenario_with "FAILED")) (this s) (log s) = [].
Proof.
  exact (After_after_failed_setup_raises obliging_driver {[ "BROWSER" := "opera" ]}
           (scenario_with "UNKNOWN") (scenario_with "FAILED") (Some (AttachH 0)) []
           eq_refl eq_refl).
Defined.

(** C1 (what the code does instead).  With a failed status and no page on
    the world, the error raised by the capture leaves [After]: the hook ends
    with "No page available on World", having made no call at all, so no
    handle that is set gets released either. *)
Theorem After_capture_failure_escapes
  (drv : Driver) (sc : Scenario) (w : World) (h : history) :
  is_failed sc = true ->
  page w = None ->
  run (After drv sc) w h = (Throw CustomWorld.no_page, {| this := w; log := h |}).
Proof.
  intros F P. rewrite After_run. unfold ending, trace_of, captureEvidence. rewrite F.
  destruct w as [b c p a]; simpl in P; subst p. unfold_hooks.
  rewrite events_since_nil, app_nil_r. reflexivity.
Qed.

Lemma After_capture_failure_escapes_witness :
  run (After obliging_driver (scenario_with "FAILED"))
      (CustomWorld.constructor (Some (AttachH 0))) []
  = (Throw (Error "No page available on World"),
     {| this := CustomWorld.constructor (Some (AttachH 0)); log := [] |}).
Proof.
  apply (After_capture_failure_escapes obliging_driver (scenario_with "FAILED")
           (CustomWorld.constructor (Some (AttachH 0))) []); reflexivity.
Defined.

(** C2 (what the code does instead).  When closing the page is rejected,
    the rejection leaves [After] at once: the record ends with the failed
    page close, and neither the session nor the browser is closed. *)
Theorem After_release_failure_stops_teardown
  (drv : Driver) (sc : Scenario) (w : World) (h : history) (p : Page) (e : error) :
  is_failed sc = false ->
  page w = Some p ->
  page_close drv h p = Throw e ->
  run (After drv sc) w h
  = (Throw e, {| this := w; log := h ++ [Ev (ClosePage p) false] |}).
Proof.
  intros F P E. rewrite (After_not_failed drv sc w h F).
  destruct w as [b c p' a]; simpl in P; subst p'. unfold_hooks. rewrite E. reflexivity.
Qed.

Lemma After_release_failure_stops_teardown_witness :
  run (After stuck_page_driver (scenario_with "PASSED")) ready_world []
  = (Throw (DriverError "page.close: Protocol error"),
     {| this := ready_world; log := [Ev (ClosePage (PageH 2)) false] |}).
Proof.
  apply (After_release_failure_stops_teardown stuck_page_driver
           (scenario_with "PASSED") ready_world [] (PageH 2)
           (DriverError "page.close: Protocol error")); reflexivity.
Defined.

(** C3 (what the code does instead).  When HEADLESS is absent from the
    environment the resolved flag is false, and [Before] asks the driver
    for a headed browser. *)
Theorem Before_headless_unset_is_headed (env : gmap string string) :
  env !! "HEADLESS" = None ->
  headless env = false
  /\ forall drv sc w h bt,
       playwright drv (browserName env) = Some bt ->
       exists rest,
         trace_of (Before drv env sc) w h
         = Ev (Launch (browserName env) false) (is_ok (launch drv h bt false)) :: rest.
Proof.
  intros U.
  assert (Hh : headless env = false) by (unfold headless; rewrite U; reflexivity).
  split; [exact Hh|].
  intros drv sc w h bt B. unfold_hooks. rewrite B, Hh. simpl.
  case_driver drv; tidy_log; eexists; reflexivity.
Qed.

Lemma Before_headless_unset_is_headed_witness :
  headless ∅ = false
  /\ forall drv sc w h bt,
       playwright drv (browserName ∅) = Some bt ->
       exists rest,
         trace_of (Before drv ∅ sc) w h
         = Ev (Launch (browserName ∅) false) (is_ok (launch drv h bt false)) :: rest.
Proof.
  apply (Before_headless_unset_is_headed ∅). reflexivity.
Defined.

(** ** Setup *)

(** C7. A world starts with its three handles null.  When [Before] returns
    normally the driver was asked, once each and in this order, for a
    browser, a session in it and a page in that session, and the three
    answers are what the world now holds; the attach function is left as it
    was.  However [Before] ends, it asks for at most one browser, one
    session and one page. *)
Theorem Before_establishes_handles
  (drv : Driver) (env : gmap string string) (sc : Scenario) :
  (forall a,
      browser (CustomWorld.constructor a) = None
      /\ context (CustomWorld.constructor a) = None
      /\ page (CustomWorld.constructor a) = None)
  /\ (forall w h,
        ending (Before drv env sc) w h = Ok tt ->
        exists bt b c p,
          playwright drv (browserName env) = Some bt
          /\ launch drv h bt (headless env) = Ok b
          /\ newContext drv (h ++ [Ev (Launch (browserName env) (headless env)) true]) b = Ok c
          /\ newPage drv (h ++ [Ev (Launch (browserName env) (headless env)) true;
                                Ev (NewContext b) true]) c = Ok p
          /\ world_after (Before drv env sc) w h
             = {| browser := Some b; context := Some c; page := Some p; attach := attach w |}
          /\ creation_calls (trace_of (Before drv env sc) w h)
             = [Launch (browserName env) (headless env); NewContext b; NewPage c])
  /\ (forall w h,
        count_calls is_launch (trace_of (Before drv env sc) w h) <= 1
        /\ count_calls is_newContext (trace_of (Before drv env sc) w h) <= 1
        /\ count_calls is_newPage (trace_of (Before drv env sc) w h) <= 1).
Proof.
  split; [intros a; repeat split|]. split.
  - intros w h. unfold_hooks.
    destruct (playwright drv (browserName env)) as [bt|]; simpl; [|discriminate].
    destruct (launch drv h bt (headless env)) as [b|e] eqn:L; simpl; [|discriminate].
    destruct (newContext drv _ b) as [c|e] eqn:C; simpl; [|discriminate].
    destruct (newPage drv _ c) as [p|e] eqn:P; simpl; [|discriminate].
    intros _. exists bt, b, c, p. rewrite <- app_assoc in P. simpl in P.
    repeat split; try assumption. tidy_log. reflexivity.
  - intros w h. unfold count_calls. unfold_hooks.
    destruct (playwright drv (browserName env)) as [bt|]; simpl;
      case_driver drv; tidy_log; repeat split; lia.
Qed.

Example Before_default_run :
  run (Before obliging_driver ∅ (scenario_with "UNKNOWN")) (CustomWorld.constructor None) []
  = (Ok tt,
     {| this := {| browser := Some (BrowserH 0); context := Some (ContextH 1);
                   page := Some (PageH 2); attach := None |};
        log := [Ev (Launch "chromium" false) true;
                Ev (NewContext (BrowserH 0)) true;
                Ev (NewPage (ContextH 1)) true;
                Ev (ConsoleLog (newline +:+ "--- Executing scenario: Test site login ---")) true;
                Ev (ConsoleLog "Environment: undefined") true;
                Ev (ConsoleLog "Base URL: undefined") true;
                Ev (ConsoleLog "Browser launched: chromium (headless: false)") true] |}).
Proof. reflexivity. Qed.

Example Before_unknown_engine :
  run (Before obliging_driver {[ "BROWSER" := "opera" ]} (scenario_with "UNKNOWN"))
      (CustomWorld.constructor None) []
  = (Throw (TypeError "Cannot read properties of undefined (reading 'launch')"),
     {| this := CustomWorld.constructor None; log := [] |}).
Proof. reflexivity. Qed.

(** ** The screenshot method *)

(** C10. On a world with a page, [takeAndAttachScreenshot] returns the
    buffer the page's screenshot produced whenever it returns at all.  Once
    the screenshot is taken, the attach function is called with that buffer
    exactly when the world has one; without one the method makes no further
    call and returns the buffer. *)
Theorem takeAndAttachScreenshot_returns_buffer
  (drv : Driver) (name : option string) (w : World) (h : history) (p : Page) :
  page w = Some p ->
  (forall buf,
      ending (CustomWorld.takeAndAttachScreenshot drv name) w h = Ok buf ->
      screenshot drv h p true = Ok buf)
  /\ (forall buf,
        screenshot drv h p true = Ok buf ->
        match attach w with
        | None =>
            run (CustomWorld.takeAndAttachScreenshot drv name) w h
            = (Ok buf, {| this := w; log := h ++ [Ev (Screenshot p true) true] |})
        | Some a =>
            let r := attach_call drv (h ++ [Ev (Screenshot p true) true]) a buf "image/png" in
            run (CustomWorld.takeAndAttachScreenshot drv name) w h
            = (match r with Ok _ => Ok buf | Throw e => Throw e end,
               {| this := w;
                  log := h ++ [Ev (Screenshot p true) true;
                               Ev (Attach a buf "image/png") (is_ok r)] |})
        end).
Proof.
  intros P. destruct w as [b c p' a]; simpl in P; subst p'. split.
  - intros buf. unfold_hooks.
    destruct (screenshot drv h p true) as [buf'|e]; simpl; [|discriminate].
    destruct a as [a|]; simpl.
    + destruct (attach_call drv _ a buf' "image/png") as [[]|e]; simpl;
        [congruence | discriminate].
    + congruence.
  - intros buf S. destruct a as [a|]; unfold_hooks; rewrite S; simpl.
    + destruct (attach_call drv _ a buf "image/png") as [[]|e]; simpl;
        rewrite <- app_assoc; reflexivity.
    + reflexivity.
Qed.

Lemma takeAndAttachScreenshot_returns_buffer_witness :
  (forall buf,
      ending (CustomWorld.takeAndAttachScreenshot obliging_driver None) ready_world [] = Ok buf ->
      screenshot obliging_driver [] (PageH 2) true = Ok buf)
  /\ (forall buf,
        screenshot obliging_driver [] (PageH 2) true = Ok buf ->
        run (CustomWorld.takeAndAttachScreenshot obliging_driver None) ready_world []
        = (Ok buf,
           {| this := ready_world;
              log := [Ev (Screenshot (PageH 2) true) true;
                      Ev (Attach (AttachH 0) buf "image/png") true] |})).
Proof.
  apply (takeAndAttachScreenshot_returns_buffer obliging_driver None ready_world []
           (PageH 2)). reflexivity.
Defined.

(** ** Evidence on failure *)

Section Evidence.
Variable drv : Driver.

(** What the capture branch records, case by case. *)
Lemma captureEvidence_trace (sc : Scenario) (w : World) (h : history) :
  trace_of (captureEvidence drv sc) w h
  = if is_failed sc then
      match page w with
      | None => []
      | Some p =>
          match screenshot drv h p true with
          | Throw _ => [Ev (Screenshot p true) false]
          | Ok buf =>
              Ev (Screenshot p true) true ::
              match attach w with
              | None => []
              | Some a =>
                  [Ev (Attach a buf "image/png")
                      (is_ok (attach_call drv (h ++ [Ev (Screenshot p true) true])
                                a buf "image/png"))]
              end
          end
      end
    else [].
Proof.
  unfold captureEvidence. destruct (is_failed sc); destruct w as [b c [p|] [a|]];
    unfold_hooks; case_driver drv; tidy_log; reflexivity.
Qed.

Lemma After_attachments (sc : Scenario) (w : World) (h : history) :
  attachments (trace_of (After drv sc) w h)
  = attachments (trace_of (captureEvidence drv sc) w h).
Proof.
  rewrite After_trace, attachments_app.
  destruct (ending (captureEvidence drv sc) w h); simpl.
  - destruct (releaseResources_no_evidence drv w
                (h ++ trace_of (captureEvidence drv sc) w h)) as [-> _].
    apply app_nil_r.
  - apply app_nil_r.
Qed.

Lemma After_captures (sc : Scenario) (w : World) (h : history) :
  captures (trace_of (After drv sc) w h)
  = captures (trace_of (captureEvidence drv sc) w h).
Proof.
  rewrite After_trace, captures_app.
  destruct (ending (captureEvidence drv sc) w h); simpl.
  - destruct (releaseResources_no_evidence drv w
                (h ++ trace_of (captureEvidence drv sc) w h)) as [_ ->].
    apply app_nil_r.
  - apply app_nil_r.
Qed.

End Evidence.

(** C4 as stated fails.  A scenario set up on a world built without an
    attach function fails a step; its page is usable (the screenshot
    resolves), yet teardown attaches nothing. *)
Lemma After_failed_without_attach_attaches_nothing :
  let sc := scenario_with "FAILED" in
  let s := snd (run (Before obliging_driver ∅ sc) (CustomWorld.constructor None) []) in
  is_failed sc = true
  /\ page (this s) = Some (PageH 2)
  /\ screenshot obliging_driver (log s) (PageH 2) true = Ok png_magic
  /\ length (attachments (trace_of (After obliging_driver sc) (this s) (log s))) = 0
  /\ length (attachments (trace_of (After obliging_driver sc) (this s) (log s))) <> 1.
Proof. vm_compute. repeat split; discriminate. Qed.

(** C4, amended.  Teardown attaches at most one artifact.  It attaches
    exactly one exactly when the status is failed, the world has a page
    whose screenshot resolves, and the world has an attach function whose
    call resolves.  Whatever is attached is the image of the world's page,
    taken with the full-page option and tagged image/png.  With any status
    other than failed nothing is captured and nothing is attached. *)
Theorem After_attachment_count
  (drv : Driver) (sc : Scenario) (w : World) (h : history) :
  length (attachments (trace_of (After drv sc) w h)) <= 1
  /\ (length (attachments (trace_of (After drv sc) w h)) = 1
      <-> is_failed sc = true
          /\ exists p buf a,
               page w = Some p
               /\ screenshot drv h p true = Ok buf
               /\ attach w = Some a
               /\ attach_call drv (h ++ [Ev (Screenshot p true) true]) a buf "image/png"
                  = Ok tt)
  /\ (forall x,
        In x (attachments (trace_of (After drv sc) w h)) ->
        exists p,
          page w = Some p
          /\ screenshot drv h p true = Ok (fst x)
          /\ snd x = "image/png"
          /\ captures (trace_of (After drv sc) w h) = [(p, true)])
  /\ (is_failed sc = false ->
      attachments (trace_of (After drv sc) w h) = []
      /\ captures (trace_of (After drv sc) w h) = []).
Proof.
  rewrite After_attachments, After_captures, captureEvidence_trace.
  destruct (is_failed sc); simpl;
    [|no_artifact].
  destruct (page w) as [p|] eqn:P; simpl;
    [|no_artifact].
  destruct (screenshot drv h p true) as [buf|e] eqn:S; simpl;
    [|no_artifact].
  destruct (attach w) as [a|] eqn:A; simpl;
    [|no_artifact].
  destruct (attach_call drv _ a buf "image/png") as [[]|e] eqn:C; simpl;
    [|no_artifact].
  repeat split; try lia; try discriminate.
  - exists p, buf, a. auto.
  - intros x [<-|[]]. exists p. auto.
Qed.

(** C8 as stated fails.  A failed scenario with a usable page on a world
    that has no attach function: the full-page capture is taken and then
    attached nowhere, no call tagged image/png is made. *)
Lemma After_failed_capture_not_attached :
  let sc := scenario_with "failed" in
  let t := trace_of (After obliging_driver sc) world_without_attach [] in
  is_failed sc = true
  /\ screenshot obliging_driver [] (PageH 2) true = Ok png_magic
  /\ t = [Ev (Screenshot (PageH 2) true) true;
          Ev (ClosePage (PageH 2)) true;
          Ev (CloseContext (ContextH 1)) true;
          Ev (CloseBrowser (BrowserH 0)) true]
  /\ ~ (exists a ok, In (Ev (Attach a png_magic "image/png") ok) t).
Proof.
  vm_compute. repeat split.
  intros (a & ok & H). repeat (destruct H as [H|H]; [discriminate H|]). exact H.
Qed.

(** C8, amended.  For a failed scenario whose page is usable, teardown
    first takes a screenshot of the world's page with the full-page option,
    the only capture it takes.  When the world has an attach function, the
    next call attaches that very buffer tagged image/png, and the buffer is
    the one artifact of the report if the call resolves; when the world has
    none, nothing is attached. *)
Theorem After_evidence_full_page_png
  (drv : Driver) (sc : Scenario) (w : World) (h : history) (p : Page) (buf : Buffer) :
  is_failed sc = true ->
  page w = Some p ->
  screenshot drv h p true = Ok buf ->
  captures (trace_of (After drv sc) w h) = [(p, true)]
  /\ match attach w with
     | Some a =>
         let r := attach_call drv (h ++ [Ev (Screenshot p true) true]) a buf "image/png" in
         (exists rest,
             trace_of (After drv sc) w h
             = Ev (Screenshot p true) true :: Ev (Attach a buf "image/png") (is_ok r) :: rest)
         /\ (r = Ok tt -> attachments (trace_of (After drv sc) w h) = [(buf, "image/png")])
     | None =>
         (exists rest,
             trace_of (After drv sc) w h = Ev (Screenshot p true) true :: rest
             /\ close_calls rest = map ev_call rest)
         /\ attachments (trace_of (After drv sc) w h) = []
     end.
Proof.
  intros F P S.
  rewrite After_attachments, After_captures, After_trace, captureEvidence_trace.
  rewrite F, P, S. destruct (attach w) as [a|]; simpl.
  - split; [reflexivity|]. split.
    + eexists; reflexivity.
    + intros ->. reflexivity.
  - split; [reflexivity|]. split; [|reflexivity].
    eexists. split; [reflexivity|].
    destruct (ending (captureEvidence drv sc) w h); [|reflexivity].
    apply releaseResources_only_closes.
Qed.

Lemma After_evidence_full_page_png_witness :
  captures (trace_of (After obliging_driver (scenario_with "FAILED")) ready_world [])
  = [(PageH 2, true)]
  /\ (exists rest,
        trace_of (After obliging_driver (scenario_with "FAILED")) ready_world []
        = Ev (Screenshot (PageH 2) true) true
          :: Ev (Attach (AttachH 0) png_magic "image/png") true :: rest)
  /\ (Ok tt = Ok tt ->
      attachments (trace_of (After obliging_driver (scenario_with "FAILED")) ready_world [])
      = [(png_magic, "image/png")]).
Proof.
  apply (After_evidence_full_page_png obliging_driver (scenario_with "FAILED")
           ready_world [] (PageH 2) png_magic); reflexivity.
Defined.

(** ** The world after teardown *)

Lemma log_grows (h : history) (e : event) (t : history) : h ++ e :: t <> h.
Proof.
  intros E. apply (f_equal (@length event)) in E.
  rewrite length_app in E. simpl in E. lia.
Qed.

Section AfterTeardown.
Variable drv : Driver.

(** The world's own error, raised before any call is made, is the
    answer of [takeAndAttachScreenshot] exactly on a world without page. *)
Lemma takeAndAttachScreenshot_no_page_iff (name : option string) (w : World) (h : history) :
  run (CustomWorld.takeAndAttachScreenshot drv name) w h
    = (Throw CustomWorld.no_page, {| this := w; log := h |})
  <-> page w = None.
Proof.
  destruct w as [b c [p|] a]; unfold_hooks.
  - split; [|discriminate]. intros E. exfalso.
    destruct (screenshot drv h p true) as [buf|e]; simpl in E.
    + destruct a as [a|]; simpl in E.
      * destruct (attach_call drv _ a buf "image/png") as [[]|e]; simpl in E;
          injection E as _ E; rewrite <- app_assoc in E; exact (log_grows _ _ _ E).
      * injection E as _ E. exact (log_grows _ _ _ E).
    + injection E as _ E. exact (log_grows _ _ _ E).
  - split; reflexivity.
Qed.

Lemma goto_no_page_iff (url : string) (options : option (list (string * JS.value)))
      (w : World) (h : history) :
  run (CustomWorld.goto drv url options) w h
    = (Throw CustomWorld.no_page, {| this := w; log := h |})
  <-> page w = None.
Proof.
  destruct w as [b c [p|] a]; unfold_hooks.
  - split; [|discriminate]. intros E. exfalso.
    destruct (page_goto drv h p url _) as [[]|e]; simpl in E.
    + injection E as _ E. rewrite <- app_assoc in E. exact (log_grows _ _ _ E).
    + injection E as _ E. exact (log_grows _ _ _ E).
  - split; reflexivity.
Qed.

End AfterTeardown.




Section ClosedWorld.
Variable drv : Driver.



End ClosedWorld.



Example further_use_after_teardown :
  let s := snd (run (After strict_driver (scenario_with "PASSED")) ready_world []) in
  ending (CustomWorld.takeAndAttachScreenshot strict_driver None) (this s) (log s)
  = Throw target_closed
  /\ ending (CustomWorld.goto strict_driver "https://playwright.dev/" None) (this s) (log s)
     = Throw target_closed
  /\ ending (CustomWorld.goto strict_driver "https://playwright.dev/" None)
            (CustomWorld.constructor None) []
     = Throw CustomWorld.no_page.
Proof. vm_compute. repeat split. Qed.


(** * Further properties of the hooks and the world *)

(** ** Navigation *)

(** X1. On a world with a page, [goto] navigates the page and then waits
    for its load state with a ten second timeout.  The wait is issued only
    after the navigation resolved; the first rejection is what [goto]
    raises; it returns normally exactly when both calls resolve.  Omitted
    options are passed as the empty object, and the world is not touched. *)
Theorem goto_navigates_then_waits
  (drv : Driver) (url : string) (options : option (list (string * JS.value)))
  (w : World) (h : history) (p : Page) :
  page w = Some p ->
  let opts := match options with Some o => o | None => [] end in
  let nav := page_goto drv h p url opts in
  let wait := waitForLoadState drv (h ++ [Ev (Goto p url opts) true]) p "load" 10000%Z in
  world_after (CustomWorld.goto drv url options) w h = w
  /\ (ending (CustomWorld.goto drv url options) w h = Ok tt
      <-> nav = Ok tt /\ wait = Ok tt)
  /\ (forall e,
        nav = Throw e ->
        run (CustomWorld.goto drv url options) w h
        = (Throw e, {| this := w; log := h ++ [Ev (Goto p url opts) false] |}))
  /\ (nav = Ok tt ->
      run (CustomWorld.goto drv url options) w h
      = (wait,
         {| this := w;
            log := h ++ [Ev (Goto p url opts) true;
                         Ev (WaitForLoadState p "load" 10000%Z) (is_ok wait)] |})).
Proof.
  intros P opts nav wait. subst nav wait opts.
  destruct w as [b c p' a]; simpl in P; subst p'.
  destruct options as [o|]; unfold_hooks.
  all: destruct (page_goto drv h p url _) as [[]|e] eqn:N; simpl.
  all: repeat split; try discriminate; try rewrite <- app_assoc; try reflexivity.
  all: try (intros E; rewrite E; split; reflexivity).
  all: try (intros [_ E]; exact E).
  all: try (intros [E _]; discriminate E).
  all: try (intros e' [= <-]; reflexivity).
  all: assumption.
Qed.

Lemma goto_navigates_then_waits_witness :
  world_after (CustomWorld.goto unreachable_site_driver "https://example.invalid/" None)
              ready_world []
  = ready_world
  /\ (ending (CustomWorld.goto unreachable_site_driver "https://example.invalid/" None)
             ready_world [] = Ok tt
      <-> page_goto unreachable_site_driver [] (PageH 2) "https://example.invalid/" [] = Ok tt
          /\ waitForLoadState unreachable_site_driver
                [Ev (Goto (PageH 2) "https://example.invalid/" []) true]
                (PageH 2) "load" 10000%Z = Ok tt)
  /\ (forall e,
        page_goto unreachable_site_driver [] (PageH 2) "https://example.invalid/" [] = Throw e ->
        run (CustomWorld.goto unreachable_site_driver "https://example.invalid/" None)
            ready_world []
        = (Throw e,
           {| this := ready_world;
              log := [Ev (Goto (PageH 2) "https://example.invalid/" []) false] |}))
  /\ (page_goto unreachable_site_driver [] (PageH 2) "https://example.invalid/" [] = Ok tt ->
      run (CustomWorld.goto unreachable_site_driver "https://example.invalid/" None)
          ready_world []
      = (Ok tt,
         {| this := ready_world;
            log := [Ev (Goto (PageH 2) "https://example.invalid/" []) true;
                    Ev (WaitForLoadState (PageH 2) "load" 10000%Z) true] |})).
Proof.
  apply (goto_navigates_then_waits unreachable_site_driver "https://example.invalid/"
           None ready_world [] (PageH 2)). reflexivity.
Defined.

(** ** The screenshot method: how it fails *)

(** X2. [takeAndAttachScreenshot] raises in three ways only: its own
    "No page available on World" when the world has no page, the rejection
    of the page's screenshot, or the rejection of the attach call made with
    the buffer just captured.  In the last case the capture was taken and
    its buffer is lost to the caller. *)
Theorem takeAndAttachScreenshot_failure_modes
  (drv : Driver) (name : option string) (w : World) (h : history) (e : error) :
  ending (CustomWorld.takeAndAttachScreenshot drv name) w h = Throw e
  <-> (page w = None /\ e = CustomWorld.no_page)
      \/ (exists p, page w = Some p /\ screenshot drv h p true = Throw e)
      \/ (exists p buf a,
             page w = Some p
             /\ screenshot drv h p true = Ok buf
             /\ attach w = Some a
             /\ attach_call drv (h ++ [Ev (Screenshot p true) true]) a buf "image/png"
                = Throw e).
Proof.
  destruct w as [b c [p|] a]; unfold_hooks.
  - destruct (screenshot drv h p true) as [buf|e'] eqn:S; simpl.
    + destruct a as [a|]; simpl.
      * destruct (attach_call drv _ a buf "image/png") as [[]|e'] eqn:C; simpl.
        -- split; [discriminate|].
           intros [[[=] _] | [(p' & [= <-] & S') | (p' & buf' & a' & [= <-] & S' & [= <-] & C')]];
             congruence.
        -- split.
           ++ intros [= <-]. right; right. exists p, buf, a. auto.
           ++ intros [[[=] _] | [(p' & [= <-] & S') | (p' & buf' & a' & [= <-] & S' & [= <-] & C')]];
                congruence.
      * split; [discriminate|].
        intros [[[=] _] | [(p' & [= <-] & S') | (p' & buf' & a' & _ & _ & [=] & _)]];
          congruence.
    + split.
      * intros [= <-]. right; left. exists p. auto.
      * intros [[[=] _] | [(p' & [= <-] & S') | (p' & buf' & a' & [= <-] & S' & _)]];
          congruence.
  - split.
    + intros [= <-]. left. auto.
    + intros [[_ ->] | [(p' & [=] & _) | (p' & buf' & a' & [=] & _)]]. reflexivity.
Qed.

Example takeAndAttachScreenshot_report_refuses :
  run (CustomWorld.takeAndAttachScreenshot closed_report_driver None) ready_world []
  = (Throw (DriverError "Cannot attach when a step/hook is not running"),
     {| this := ready_world;
        log := [Ev (Screenshot (PageH 2) true) true;
                Ev (Attach (AttachH 0) png_magic "image/png") false] |}).
Proof. reflexivity. Qed.

(** ** Setup, step by step *)

Section SetupSteps.
Variable drv : Driver.
Variable env : gmap string string.

(** [Before], case by case on what the driver answers. *)
Lemma Before_run (sc : Scenario) (w : World) (h : history) :
  run (Before drv env sc) w h
  = match playwright drv (browserName env) with
    | None =>
        (Throw (TypeError
                  (if playwright_other drv (browserName env)
                   then "playwright[browserName].launch is not a function"
                   else "Cannot read properties of undefined (reading 'launch')")),
         {| this := w; log := h |})
    | Some bt =>
        let l := Ev (Launch (browserName env) (headless env)) in
        match launch drv h bt (headless env) with
        | Throw e => (Throw e, {| this := w; log := h ++ [l false] |})
        | Ok b =>
            match newContext drv (h ++ [l true]) b with
            | Throw e =>
                (Throw e,
                 {| this := set_browser (Some b) w;
                    log := h ++ [l true; Ev (NewContext b) false] |})
            | Ok c =>
                match newPage drv (h ++ [l true; Ev (NewContext b) true]) c with
                | Throw e =>
                    (Throw e,
                     {| this := set_context (Some c) (set_browser (Some b) w);
                        log := h ++ [l true; Ev (NewContext b) true;
                                     Ev (NewPage c) false] |})
                | Ok p =>
                    (Ok tt,
                     {| this := {| browser := Some b; context := Some c;
                                   page := Some p; attach := attach w |};
                        log := h ++ [l true; Ev (NewContext b) true; Ev (NewPage c) true]
                                 ++ map (fun line => Ev (ConsoleLog line) true)
                                        (setup_lines env sc) |})
                end
            end
        end
    end.
Proof.
  unfold_hooks. destruct w as [wb wc wp wa]; simpl.
  destruct (playwright drv (browserName env)) as [bt|]; simpl; [|reflexivity].
  destruct (launch drv h bt (headless env)) as [b|e]; simpl; [|reflexivity].
  destruct (newContext drv _ b) as [c|e]; simpl;
    [|rewrite <- app_assoc; reflexivity].
  rewrite <- !app_assoc. simpl.
  destruct (newPage drv _ c) as [p|e]; simpl;
    rewrite <- ?app_assoc; reflexivity.
Qed.

End SetupSteps.

(** X3. [Before] returns normally exactly when the engine lookup finds an
    engine and the driver resolves the three creation calls, each asked
    with the record left by the previous one: the logging that follows
    cannot make it fail.  When it raises, the error is one of the
    language's two TypeErrors, raised before any call is made (nothing
    under that name: [launch] is read from [undefined]; a value that is no
    engine: its [launch] is not a function), or else the rejection of the
    first creation call that failed. *)
Theorem Before_raises_what_failed
  (drv : Driver) (env : gmap string string) (sc : Scenario) (w : World) (h : history) :
  let l := Ev (Launch (browserName env) (headless env)) true in
  (ending (Before drv env sc) w h = Ok tt
   <-> exists bt b c p,
         playwright drv (browserName env) = Some bt
         /\ launch drv h bt (headless env) = Ok b
         /\ newContext drv (h ++ [l]) b = Ok c
         /\ newPage drv (h ++ [l; Ev (NewContext b) true]) c = Ok p)
  /\ (forall e,
        ending (Before drv env sc) w h = Throw e ->
        (playwright drv (browserName env) = None
         /\ playwright_other drv (browserName env) = false
         /\ e = TypeError "Cannot read properties of undefined (reading 'launch')"
         /\ trace_of (Before drv env sc) w h = [])
        \/ (playwright drv (browserName env) = None
            /\ playwright_other drv (browserName env) = true
            /\ e = TypeError "playwright[browserName].launch is not a function"
            /\ trace_of (Before drv env sc) w h = [])
        \/ (exists bt,
               playwright drv (browserName env) = Some bt
               /\ (launch drv h bt (headless env) = Throw e
                   \/ exists b,
                        launch drv h bt (headless env) = Ok b
                        /\ (newContext drv (h ++ [l]) b = Throw e
                            \/ exists c,
                                 newContext drv (h ++ [l]) b = Ok c
                                 /\ newPage drv (h ++ [l; Ev (NewContext b) true]) c
                                    = Throw e)))).
Proof.
  intros l. subst l. unfold ending, trace_of. rewrite Before_run. cbv zeta.
  destruct (playwright drv (browserName env)) as [bt|]; cbn [fst snd].
  2:{ split; [split; [discriminate | intros (? & ? & ? & ? & [=] & _)]|].
      intros e [= <-]. rewrite events_since_nil.
      destruct (playwright_other drv (browserName env)); [right; left | left]; auto. }
  destruct (launch drv h bt (headless env)) as [b|e0] eqn:L; cbn [fst snd].
  2:{ split; [split; [discriminate | intros (? & ? & ? & ? & [= <-] & L' & _); congruence]|].
      intros e [= <-]. right; right. exists bt. auto. }
  destruct (newContext drv _ b) as [c|e0] eqn:C; cbn [fst snd].
  2:{ split; [split; [discriminate
                     | intros (? & b' & ? & ? & [= <-] & L' & C' & _); congruence]|].
      intros e [= <-]. right; right. exists bt. split; [reflexivity|]. right.
      exists b. auto. }
  destruct (newPage drv _ c) as [p|e0] eqn:P; cbn [fst snd].
  2:{ split; [split; [discriminate
                     | intros (? & b' & c' & ? & [= <-] & L' & C' & P'); congruence]|].
      intros e [= <-]. right; right. exists bt. split; [reflexivity|]. right. exists b.
      split; [assumption|]. right. exists c. auto. }
  split; [|discriminate].
  split; [|reflexivity]. intros _. exists bt, b, c, p. auto.
Qed.

Example Before_member_without_launch :
  run (Before obliging_driver {[ "BROWSER" := "devices" ]} (scenario_with "UNKNOWN"))
      (CustomWorld.constructor None) []
  = (Throw (TypeError "playwright[browserName].launch is not a function"),
     {| this := CustomWorld.constructor None; log := [] |}).
Proof. reflexivity. Qed.

(** X4. A failed [Before] never leaves a page on the world, and it leaves
    behind the handles it had already created: nothing when the launch is
    rejected, the browser when the session is rejected, the browser and the
    session when the page is rejected.  The attach function is never
    changed. *)
Theorem Before_failure_leaves_partial_world
  (drv : Driver) (env : gmap string string) (sc : Scenario) (w : World) (h : history) :
  let l := Ev (Launch (browserName env) (headless env)) true in
  attach (world_after (Before drv env sc) w h) = attach w
  /\ (forall e,
        ending (Before drv env sc) w h = Throw e ->
        page (world_after (Before drv env sc) w h) = page w)
  /\ (forall bt e,
        playwright drv (browserName env) = Some bt ->
        launch drv h bt (headless env) = Throw e ->
        world_after (Before drv env sc) w h = w)
  /\ (forall bt b e,
        playwright drv (browserName env) = Some bt ->
        launch drv h bt (headless env) = Ok b ->
        newContext drv (h ++ [l]) b = Throw e ->
        world_after (Before drv env sc) w h = set_browser (Some b) w)
  /\ (forall bt b c e,
        playwright drv (browserName env) = Some bt ->
        launch drv h bt (headless env) = Ok b ->
        newContext drv (h ++ [l]) b = Ok c ->
        newPage drv (h ++ [l; Ev (NewContext b) true]) c = Throw e ->
        world_after (Before drv env sc) w h
        = set_context (Some c) (set_browser (Some b) w)).
Proof.
  intros l. subst l. unfold world_after, ending. rewrite Before_run. cbv zeta.
  split; [|split; [|split; [|split]]].
  - destruct (playwright drv (browserName env)) as [bt|]; simpl; [|reflexivity].
    destruct (launch drv h bt (headless env)) as [b|e]; simpl; [|reflexivity].
    destruct (newContext drv _ b) as [c|e]; simpl; [|reflexivity].
    destruct (newPage drv _ c) as [p|e]; reflexivity.
  - intros e.
    destruct (playwright drv (browserName env)) as [bt|]; simpl; [|reflexivity].
    destruct (launch drv h bt (headless env)) as [b|e']; simpl; [|reflexivity].
    destruct (newContext drv _ b) as [c|e']; simpl; [|reflexivity].
    destruct (newPage drv _ c) as [p|e']; simpl; [discriminate | reflexivity].
  - intros bt e -> ->. reflexivity.
  - intros bt b e -> -> ->. reflexivity.
  - intros bt b c e -> -> -> ->. reflexivity.
Qed.

Example Before_session_rejected :
  run (Before no_session_driver ∅ (scenario_with "UNKNOWN"))
      (CustomWorld.constructor (Some (AttachH 0))) []
  = (Throw (DriverError "browser.newContext: Target closed"),
     {| this := {| browser := Some (BrowserH 0); context := None; page := None;
                   attach := Some (AttachH 0) |};
        log := [Ev (Launch "chromium" false) true;
                Ev (NewContext (BrowserH 0)) false] |}).
Proof. reflexivity. Qed.

(** X5. A setup that fails after the browser was launched, followed by the
    teardown of the scenario (whose status is then failed): [After] raises
    "No page available on World" without making a single call, so the
    browser that was launched stays on the world and is never closed. *)
Theorem failed_setup_leaks_browser
  (drv : Driver) (env : gmap string string) (sc sc' : Scenario)
  (a : option AttachFn) (h : history) (bt : BrowserType) (b : Browser) (e : error) :
  playwright drv (browserName env) = Some bt ->
  launch drv h bt (headless env) = Ok b ->
  newContext drv (h ++ [Ev (Launch (browserName env) (headless env)) true]) b = Throw e ->
  is_failed sc' = true ->
  let s := snd (run (Before drv env sc) (CustomWorld.constructor a) h) in
  ending (Before drv env sc) (CustomWorld.constructor a) h = Throw e
  /\ browser (this s) = Some b
  /\ run (After drv sc') (this s) (log s) = (Throw CustomWorld.no_page, s)
  /\ close_calls (trace_of (After drv sc') (this s) (log s)) = [].
Proof.
  intros B L C F s. subst s. unfold ending. rewrite Before_run, B. cbv zeta.
  rewrite L, C. simpl. split; [reflexivity|]. split; [reflexivity|].
  assert (R : forall h',
             run (After drv sc')
                 (set_browser (Some b) (CustomWorld.constructor a)) h'
             = (Throw CustomWorld.no_page,
                {| this := set_browser (Some b) (CustomWorld.constructor a); log := h' |})).
  { intros h'. rewrite After_run. unfold ending, trace_of, captureEvidence. rewrite F.
    unfold_hooks. rewrite events_since_nil, app_nil_r. reflexivity. }
  split; [apply R|].
  unfold trace_of. rewrite R. cbn [snd]. rewrite events_since_nil. reflexivity.
Qed.

Lemma failed_setup_leaks_browser_witness :
  let s := snd (run (Before no_session_driver ∅ (scenario_with "UNKNOWN"))
                    (CustomWorld.constructor (Some (AttachH 0))) []) in
  ending (Before no_session_driver ∅ (scenario_with "UNKNOWN"))
         (CustomWorld.constructor (Some (AttachH 0))) []
  = Throw (DriverError "browser.newContext: Target closed")
  /\ browser (this s) = Some (BrowserH 0)
  /\ run (After no_session_driver (scenario_with "FAILED")) (this s) (log s)
     = (Throw CustomWorld.no_page, s)
  /\ close_calls (trace_of (After no_session_driver (scenario_with "FAILED"))
                           (this s) (log s)) = [].
Proof.
  apply (failed_setup_leaks_browser no_session_driver ∅ (scenario_with "UNKNOWN")
           (scenario_with "FAILED") (Some (AttachH 0)) [] (BrowserTypeH "chromium")
           (BrowserH 0) (DriverError "browser.newContext: Target closed"));
    reflexivity.
Defined.

(** X6. [Before] writes to the console only once the three handles are in
    place: a failed setup logs nothing, a successful one logs exactly four
    lines after its last creation call: the scenario name, the ENV and
    BASE_URL settings (the word "undefined" for a missing one) and the
    engine and headless flag it launched with. *)
Theorem Before_console_lines
  (drv : Driver) (env : gmap string string) (sc : Scenario) (w : World) (h : history) :
  console_lines (trace_of (Before drv env sc) w h)
  = (if is_ok (ending (Before drv env sc) w h) then setup_lines env sc else [])
  /\ (exists t,
        trace_of (Before drv env sc) w h
        = t ++ map (fun line => Ev (ConsoleLog line) true)
                   (console_lines (trace_of (Before drv env sc) w h))
        /\ console_lines t = [])
  /\ (env !! "ENV" = None ->
      ending (Before drv env sc) w h = Ok tt ->
      In "Environment: undefined" (console_lines (trace_of (Before drv env sc) w h))).
Proof.
  unfold trace_of, ending. rewrite Before_run. cbv zeta.
  destruct (playwright drv (browserName env)) as [bt|]; cbn [fst snd is_ok].
  2:{ rewrite events_since_nil. simpl. split; [reflexivity|].
      split; [exists []; split; reflexivity | discriminate]. }
  destruct (launch drv h bt (headless env)) as [b|e]; cbn [fst snd is_ok].
  2:{ rewrite events_since_app. simpl. split; [reflexivity|].
      split; [eexists; split; [symmetry; apply app_nil_r | reflexivity] | discriminate]. }
  destruct (newContext drv _ b) as [c|e]; cbn [fst snd is_ok].
  2:{ rewrite events_since_app. simpl. split; [reflexivity|].
      split; [eexists; split; [symmetry; apply app_nil_r | reflexivity] | discriminate]. }
  destruct (newPage drv _ c) as [p|e]; cbn [fst snd is_ok].
  2:{ rewrite events_since_app. simpl. split; [reflexivity|].
      split; [eexists; split; [symmetry; apply app_nil_r | reflexivity] | discriminate]. }
  rewrite events_since_app. unfold setup_lines. simpl.
  split; [reflexivity|]. split.
  - exists [Ev (Launch (browserName env) (headless env)) true;
            Ev (NewContext b) true; Ev (NewPage c) true].
    split; reflexivity.
  - intros E _. rewrite E. simpl. right; left. reflexivity.
Qed.

(** X7. [Before] only creates and logs: every call it makes is a launch, a
    new session, a new page or a console line.  It never closes a handle,
    so handles already on the world when it runs are overwritten without
    being released; it takes no screenshot and attaches nothing. *)
Theorem Before_only_setup_calls
  (drv : Driver) (env : gmap string string) (sc : Scenario) (w : World) (h : history) :
  forallb (fun e => is_setup_call (ev_call e)) (trace_of (Before drv env sc) w h) = true
  /\ close_calls (trace_of (Before drv env sc) w h) = []
  /\ captures (trace_of (Before drv env sc) w h) = []
  /\ attachments (trace_of (Before drv env sc) w h) = [].
Proof.
  unfold trace_of. rewrite Before_run. cbv zeta.
  destruct (playwright drv (browserName env)) as [bt|]; cbn [snd];
    [|rewrite events_since_nil; repeat split].
  destruct (launch drv h bt (headless env)) as [b|e]; cbn [snd];
    [|rewrite events_since_app; repeat split].
  destruct (newContext drv _ b) as [c|e]; cbn [snd];
    [|rewrite events_since_app; repeat split].
  destruct (newPage drv _ c) as [p|e]; cbn [snd];
    rewrite events_since_app; repeat split.
Qed.

Lemma Before_launch_event
  (drv : Driver) (env : gmap string string) (sc : Scenario) (w : World) (h : history)
  (name : string) (flag ok : bool) :
  In (Ev (Launch name flag) ok) (trace_of (Before drv env sc) w h) ->
  name = browserName env /\ flag = headless env.
Proof.
  unfold trace_of. rewrite Before_run. cbv zeta.
  destruct (playwright drv (browserName env)) as [bt|]; cbn [snd];
    [|rewrite events_since_nil; intros []].
  destruct (launch drv h bt (headless env)) as [b|e]; cbn [snd].
  2:{ rewrite events_since_app. intros [[= <- <- _]|[]]. auto. }
  destruct (newContext drv _ b) as [c|e]; cbn [snd].
  2:{ rewrite events_since_app. intros [[= <- <- _]|[[=]|[]]]. auto. }
  destruct (newPage drv _ c) as [p|e]; cbn [snd]; rewrite events_since_app.
  - unfold setup_lines. simpl.
    intros [[= <- <- _]|[[=]|[[=]|[[=]|[[=]|[[=]|[[=]|[]]]]]]]]. auto.
  - intros [[= <- <- _]|[[=]|[[=]|[]]]]. auto.
Qed.

(** X8. Whatever launch [Before] asks for, the headless flag is true
    exactly when HEADLESS is the string "true", letter for letter, and the
    engine name is BROWSER taken verbatim, with "chromium" standing in for
    a missing or empty BROWSER; the name asked for is never empty. *)
Theorem Before_launch_arguments
  (drv : Driver) (env : gmap string string) (sc : Scenario) (w : World) (h : history)
  (name : string) (flag ok : bool) :
  In (Ev (Launch name flag) ok) (trace_of (Before drv env sc) w h) ->
  (flag = true <-> env !! "HEADLESS" = Some "true")
  /\ (name = "chromium"
      <-> env !! "BROWSER" = None \/ env !! "BROWSER" = Some ""
          \/ env !! "BROWSER" = Some "chromium")
  /\ (forall s, env !! "BROWSER" = Some s -> s <> "" -> name = s)
  /\ name <> "".
Proof.
  intros H. apply Before_launch_event in H as [-> ->].
  unfold headless, browserName, JS.strict_eq, JS.or_default.
  split; [|split; [|split]].
  - destruct (env !! "HEADLESS") as [s|]; [|split; discriminate].
    rewrite String.eqb_eq. split; [intros -> | intros [= ->]]; reflexivity.
  - destruct (env !! "BROWSER") as [s|]; [|split; auto].
    destruct (String.eqb s "") eqn:E.
    + apply String.eqb_eq in E. subst s. split; auto.
    + apply String.eqb_neq in E. split.
      * intros ->. auto.
      * intros [[=]|[[= ->]|[= ->]]]; [contradiction E|]; reflexivity.
  - intros s -> N. destruct (String.eqb s "") eqn:E; [|reflexivity].
    apply String.eqb_eq in E. contradiction.
  - destruct (env !! "BROWSER") as [s|]; [|discriminate].
    destruct (String.eqb s "") eqn:E; [discriminate|].
    apply String.eqb_neq in E. exact E.
Qed.

Lemma Before_launch_arguments_witness :
  let env : gmap string string := {[ "HEADLESS" := "TRUE" ]} in
  (false = true <-> env !! "HEADLESS" = Some "true")
  /\ ("chromium" = "chromium"
      <-> env !! "BROWSER" = None \/ env !! "BROWSER" = Some ""
          \/ env !! "BROWSER" = Some "chromium")
  /\ (forall s, env !! "BROWSER" = Some s -> s <> "" -> "chromium" = s)
  /\ "chromium" <> "".
Proof.
  apply (Before_launch_arguments obliging_driver {[ "HEADLESS" := "TRUE" ]}
           (scenario_with "UNKNOWN") (CustomWorld.constructor None) []
           "chromium" false true).
  left. reflexivity.
Defined.

(** ** Teardown, further *)

Section TeardownMore.
Variable drv : Driver.

Lemma After_complete_closes (sc : Scenario) (w : World) (h : history) :
  ending (After drv sc) w h = Ok tt ->
  close_calls (trace_of (After drv sc) w h) = release_plan w.
Proof.
  unfold ending at 1. rewrite After_trace, After_run, close_calls_app,
    captureEvidence_no_close. simpl.
  destruct (ending (captureEvidence drv sc) w h); [|discriminate].
  apply releaseResources_complete.
Qed.

Lemma releaseResources_teardown_calls (w : World) (h : history) :
  forallb (fun e => is_teardown_call (ev_call e)) (trace_of (releaseResources drv) w h) = true
  /\ length (trace_of (releaseResources drv) w h) <= 3.
Proof.
  destruct w as [[b|] [c|] [p|] a]; unfold_hooks; case_driver drv; tidy_log;
    split; solve [reflexivity | lia].
Qed.

Lemma captureEvidence_teardown_calls (sc : Scenario) (w : World) (h : history) :
  forallb (fun e => is_teardown_call (ev_call e)) (trace_of (captureEvidence drv sc) w h) = true
  /\ length (trace_of (captureEvidence drv sc) w h) <= 2.
Proof.
  rewrite captureEvidence_trace.
  destruct (is_failed sc); [|split; [reflexivity | simpl; lia]].
  destruct (page w) as [p|]; [|split; [reflexivity | simpl; lia]].
  destruct (screenshot drv h p true); [|split; [reflexivity | simpl; lia]].
  destruct (attach w); split; solve [reflexivity | simpl; lia].
Qed.

(** How the capture ends, case by case. *)
Lemma captureEvidence_ending (sc : Scenario) (w : World) (h : history) :
  ending (captureEvidence drv sc) w h
  = if is_failed sc then
      match page w with
      | None => Throw CustomWorld.no_page
      | Some p =>
          match screenshot drv h p true with
          | Throw e => Throw e
          | Ok buf =>
              match attach w with
              | None => Ok tt
              | Some a =>
                  attach_call drv (h ++ [Ev (Screenshot p true) true]) a buf "image/png"
              end
          end
      end
    else Ok tt.
Proof.
  unfold captureEvidence. destruct (is_failed sc); destruct w as [b c [p|] [a|]];
    unfold_hooks; case_driver drv; reflexivity.
Qed.

End TeardownMore.

(** X9. A scenario that was set up and did not fail: when teardown returns
    normally it has closed exactly the page, the session and the browser
    that this setup created, in that order, whatever the world held before
    the setup. *)
Theorem lifecycle_closes_what_it_opened
  (drv : Driver) (env : gmap string string) (sc sc' : Scenario) (w : World) (h : history) :
  ending (Before drv env sc) w h = Ok tt ->
  let s := snd (run (Before drv env sc) w h) in
  ending (After drv sc') (this s) (log s) = Ok tt ->
  exists b c p,
    creation_calls (trace_of (Before drv env sc) w h)
    = [Launch (browserName env) (headless env); NewContext b; NewPage c]
    /\ this s = {| browser := Some b; context := Some c; page := Some p;
                   attach := attach w |}
    /\ close_calls (trace_of (After drv sc') (this s) (log s))
       = [ClosePage p; CloseContext c; CloseBrowser b].
Proof.
  intros B s A. pose proof (After_complete_closes drv sc' _ _ A) as R.
  revert R. subst s. clear A. revert B.
  unfold ending, trace_of at 2. rewrite Before_run. cbv zeta.
  destruct (playwright drv (browserName env)) as [bt|]; cbn [fst snd]; [|discriminate].
  destruct (launch drv h bt (headless env)) as [b|e]; cbn [fst snd]; [|discriminate].
  destruct (newContext drv _ b) as [c|e]; cbn [fst snd]; [|discriminate].
  destruct (newPage drv _ c) as [p|e]; cbn [fst snd]; [|discriminate].
  intros _ R. exists b, c, p. rewrite events_since_app.
  split; [reflexivity|]. split; [reflexivity|]. exact R.
Qed.

Lemma lifecycle_closes_what_it_opened_witness :
  let s := snd (run (Before obliging_driver ∅ (scenario_with "UNKNOWN")) ready_world []) in
  exists b c p,
    creation_calls (trace_of (Before obliging_driver ∅ (scenario_with "UNKNOWN"))
                             ready_world [])
    = [Launch "chromium" false; NewContext b; NewPage c]
    /\ this s = {| browser := Some b; context := Some c; page := Some p;
                   attach := Some (AttachH 0) |}
    /\ close_calls (trace_of (After obliging_driver (scenario_with "PASSED"))
                             (this s) (log s))
       = [ClosePage p; CloseContext c; CloseBrowser b].
Proof.
  exact (lifecycle_closes_what_it_opened obliging_driver ∅ (scenario_with "UNKNOWN")
           (scenario_with "PASSED") ready_world [] eq_refl eq_refl).
Defined.

(** X10. The scenario's name plays no part in teardown: two scenarios with
    the same result are torn down by the same calls with the same outcome.
    The label built from the name for the failure screenshot reaches
    neither the driver nor the report. *)
Theorem After_scenario_name_irrelevant
  (drv : Driver) (sc sc' : Scenario) (w : World) (h : history) :
  result sc = result sc' ->
  run (After drv sc) w h = run (After drv sc') w h.
Proof.
  intros R. unfold run, After, captureEvidence, is_failed. rewrite R.
  destruct (result sc') as [r|]; [|reflexivity].
  destruct (String.eqb _ "failed"); reflexivity.
Qed.

Lemma After_scenario_name_irrelevant_witness :
  run (After obliging_driver
         {| pickle_name := "Visit the Playwright website";
            result := Some {| status := JS.Str "FAILED" |} |}) ready_world []
  = run (After obliging_driver (scenario_with "FAILED")) ready_world [].
Proof.
  apply (After_scenario_name_irrelevant obliging_driver
           {| pickle_name := "Visit the Playwright website";
              result := Some {| status := JS.Str "FAILED" |} |}
           (scenario_with "FAILED") ready_world []).
  reflexivity.
Defined.

(** X11. For a failed scenario on a world with a page, a rejected
    screenshot or a rejected attach call ends teardown on the spot with
    that rejection: the record stops at the rejected call and no handle is
    closed. *)
Theorem After_capture_rejection_skips_release
  (drv : Driver) (sc : Scenario) (w : World) (h : history) (p : Page) :
  is_failed sc = true ->
  page w = Some p ->
  (forall e,
      screenshot drv h p true = Throw e ->
      run (After drv sc) w h
      = (Throw e, {| this := w; log := h ++ [Ev (Screenshot p true) false] |}))
  /\ (forall buf a e,
        screenshot drv h p true = Ok buf ->
        attach w = Some a ->
        attach_call drv (h ++ [Ev (Screenshot p true) true]) a buf "image/png" = Throw e ->
        run (After drv sc) w h
        = (Throw e,
           {| this := w;
              log := h ++ [Ev (Screenshot p true) true;
                           Ev (Attach a buf "image/png") false] |})).
Proof.
  intros F P. split.
  - intros e S. rewrite After_run, captureEvidence_ending, captureEvidence_trace.
    rewrite F, P, S. reflexivity.
  - intros buf a e S A C.
    rewrite After_run, captureEvidence_ending, captureEvidence_trace.
    rewrite F, P, S, A, C. reflexivity.
Qed.

Lemma After_capture_rejection_skips_release_witness :
  (forall e,
      screenshot closed_report_driver [] (PageH 2) true = Throw e ->
      run (After closed_report_driver (scenario_with "FAILED")) ready_world []
      = (Throw e,
         {| this := ready_world; log := [Ev (Screenshot (PageH 2) true) false] |}))
  /\ (forall buf a e,
        screenshot closed_report_driver [] (PageH 2) true = Ok buf ->
        attach ready_world = Some a ->
        attach_call closed_report_driver [Ev (Screenshot (PageH 2) true) true]
                    a buf "image/png" = Throw e ->
        run (After closed_report_driver (scenario_with "FAILED")) ready_world []
        = (Throw e,
           {| this := ready_world;
              log := [Ev (Screenshot (PageH 2) true) true;
                      Ev (Attach a buf "image/png") false] |})).
Proof.
  apply (After_capture_rejection_skips_release closed_report_driver
           (scenario_with "FAILED") ready_world [] (PageH 2)); reflexivity.
Defined.

Example After_report_refuses :
  run (After closed_report_driver (scenario_with "FAILED")) ready_world []
  = (Throw (DriverError "Cannot attach when a step/hook is not running"),
     {| this := ready_world;
        log := [Ev (Screenshot (PageH 2) true) true;
                Ev (Attach (AttachH 0) png_magic "image/png") false] |}).
Proof. reflexivity. Qed.

(** X12. Teardown does not remember that it ran.  When it is run again on
    the world it left, and both runs return normally, the second run asks
    the driver for the very same closes as the first. *)
Theorem After_twice_closes_twice
  (drv : Driver) (sc sc' : Scenario) (w : World) (h : history) :
  ending (After drv sc) w h = Ok tt ->
  let s := snd (run (After drv sc) w h) in
  ending (After drv sc') (this s) (log s) = Ok tt ->
  close_calls (trace_of (After drv sc') (this s) (log s))
  = close_calls (trace_of (After drv sc) w h)
  /\ close_calls (trace_of (After drv sc) w h) = release_plan w.
Proof.
  intros A s A'.
  pose proof (After_complete_closes drv sc w h A) as R.
  pose proof (After_complete_closes drv sc' _ _ A') as R'.
  assert (W : this s = w) by apply After_world.
  rewrite R', R, W. split; reflexivity.
Qed.

Lemma After_twice_closes_twice_witness :
  let s := snd (run (After obliging_driver (scenario_with "PASSED")) ready_world []) in
  close_calls (trace_of (After obliging_driver (scenario_with "PASSED")) (this s) (log s))
  = close_calls (trace_of (After obliging_driver (scenario_with "PASSED")) ready_world [])
  /\ close_calls (trace_of (After obliging_driver (scenario_with "PASSED")) ready_world [])
     = release_plan ready_world.
Proof.
  apply (After_twice_closes_twice obliging_driver (scenario_with "PASSED")
           (scenario_with "PASSED") ready_world []); reflexivity.
Defined.

(** X13. [After] makes at most five calls, and each is a screenshot, an
    attach or a close: teardown never launches, opens, navigates or
    logs. *)
Theorem After_only_teardown_calls
  (drv : Driver) (sc : Scenario) (w : World) (h : history) :
  forallb (fun e => is_teardown_call (ev_call e)) (trace_of (After drv sc) w h) = true
  /\ length (trace_of (After drv sc) w h) <= 5
  /\ console_lines (trace_of (After drv sc) w h) = []
  /\ creation_calls (trace_of (After drv sc) w h) = [].
Proof.
  assert (G : forall t, forallb (fun e => is_teardown_call (ev_call e)) t = true ->
                        console_lines t = [] /\ creation_calls t = []).
  { induction t as [|[c ok] t IH]; simpl; [split; reflexivity|].
    intros E. apply andb_true_iff in E as [E1 E2]. specialize (IH E2).
    unfold creation_calls in *. simpl. destruct c; try discriminate E1; exact IH. }
  assert (F : forallb (fun e => is_teardown_call (ev_call e)) (trace_of (After drv sc) w h)
              = true
              /\ length (trace_of (After drv sc) w h) <= 5).
  { rewrite After_trace, forallb_app, length_app.
    destruct (captureEvidence_teardown_calls drv sc w h) as [C1 C2].
    rewrite C1. destruct (ending (captureEvidence drv sc) w h).
    - destruct (releaseResources_teardown_calls drv w
                  (h ++ trace_of (captureEvidence drv sc) w h)) as [R1 R2].
      rewrite R1. split; [reflexivity | lia].
    - simpl. split; [reflexivity | lia]. }
  destruct F as [F1 F2]. destruct (G _ F1) as [G1 G2]. auto.
Qed.

Lemma releaseResources_ok_iff (drv : Driver) (w : World) (h : history) :
  ending (releaseResources drv) w h = Ok tt
  <-> forallb ev_ok (trace_of (releaseResources drv) w h) = true.
Proof.
  destruct w as [[b|] [c|] [p|] a]; unfold_hooks; case_driver drv; tidy_log;
    split; solve [reflexivity | discriminate].
Qed.

(** X14. [After] raises in two situations only: one of the calls it made
    was rejected, or the status is failed and the world has no page.  In
    every other case it returns normally. *)
Theorem After_raises_iff
  (drv : Driver) (sc : Scenario) (w : World) (h : history) :
  ending (After drv sc) w h = Ok tt
  <-> forallb ev_ok (trace_of (After drv sc) w h) = true
      /\ ~ (is_failed sc = true /\ page w = None).
Proof.
  unfold ending at 1.
  rewrite After_run, After_trace, captureEvidence_ending, captureEvidence_trace.
  assert (K : forall h' t,
             forallb ev_ok t = true ->
             ~ (is_failed sc = true /\ page w = None) ->
             (run (releaseResources drv) w h').1 = Ok tt
             <-> forallb ev_ok (t ++ trace_of (releaseResources drv) w h') = true
                 /\ ~ (is_failed sc = true /\ page w = None)).
  { intros h' t T N. rewrite forallb_app, T. simpl. split.
    - intros E. split; [apply releaseResources_ok_iff, E | exact N].
    - intros [E _]. apply releaseResources_ok_iff, E. }
  destruct (is_failed sc) eqn:F.
  2:{ apply K; [reflexivity | intros [[=] _]]. }
  destruct (page w) as [p|] eqn:P.
  2:{ simpl. split; [discriminate | intros [_ N]; exfalso; apply N; auto]. }
  destruct (screenshot drv h p true) as [buf|e] eqn:S.
  2:{ simpl. split; [discriminate | intros [[=] _]]. }
  destruct (attach w) as [a|] eqn:A.
  2:{ apply K; [reflexivity | intros [_ [=]]]. }
  destruct (attach_call drv _ a buf "image/png") as [[]|e] eqn:C.
  - apply K; [reflexivity | intros [_ [=]]].
  - simpl. split; [discriminate | intros [[=] _]].
Qed.

Lemma releaseResources_all_close (drv : Driver) (w : World) (h : history) (e : event) :
  In e (trace_of (releaseResources drv) w h) -> is_close (ev_call e) = true.
Proof.
  assert (F : forallb (fun e => is_close (ev_call e)) (trace_of (releaseResources drv) w h)
              = true).
  { destruct w as [[b|] [c|] [p|] a]; unfold_hooks; case_driver drv; tidy_log;
      reflexivity. }
  intros I. rewrite forallb_forall in F. exact (F e I).
Qed.

(** X15. A scenario set up on a fresh world and then failing: teardown
    starts with a full-page screenshot of the very page this setup opened,
    and any attach call it makes goes to the attach function the world was
    constructed with, carrying the buffer of that screenshot tagged
    image/png. *)
Theorem failure_evidence_comes_from_own_page
  (drv : Driver) (env : gmap string string) (sc sc' : Scenario)
  (a : option AttachFn) (h : history) :
  ending (Before drv env sc) (CustomWorld.constructor a) h = Ok tt ->
  is_failed sc' = true ->
  let s := snd (run (Before drv env sc) (CustomWorld.constructor a) h) in
  let l := Ev (Launch (browserName env) (headless env)) true in
  exists b c p rest,
    newPage drv (h ++ [l; Ev (NewContext b) true]) c = Ok p
    /\ trace_of (After drv sc') (this s) (log s)
       = Ev (Screenshot p true) (is_ok (screenshot drv (log s) p true)) :: rest
    /\ (forall f data mediaType ok,
          In (Ev (Attach f data mediaType) ok) (trace_of (After drv sc') (this s) (log s)) ->
          a = Some f
          /\ screenshot drv (log s) p true = Ok data
          /\ mediaType = "image/png").
Proof.
  intros B F s l. subst s l. revert B.
  unfold ending. rewrite Before_run. cbv zeta.
  destruct (playwright drv (browserName env)) as [bt|]; cbn [fst snd]; [|discriminate].
  destruct (launch drv h bt (headless env)) as [b|e]; cbn [fst snd]; [|discriminate].
  destruct (newContext drv _ b) as [c|e]; cbn [fst snd]; [|discriminate].
  destruct (newPage drv _ c) as [p|e] eqn:P; cbn [fst snd]; [|discriminate].
  intros _. cbn [this log CustomWorld.constructor attach].
  set (h' := h ++ _ ++ _).
  set (w' := {| browser := Some b; context := Some c; page := Some p; attach := a |}).
  exists b, c, p.
  rewrite After_trace, captureEvidence_ending, captureEvidence_trace, F.
  cbn [page attach w'].
  destruct (screenshot drv h' p true) as [buf|e] eqn:S.
  - destruct a as [f|].
    + eexists. split; [exact P|]. split; [reflexivity|].
      intros f' data mt ok [[=]|[[= <- <- <- _]|I]]; [auto|].
      destruct (attach_call drv _ f buf "image/png"); [|destruct I].
      apply releaseResources_all_close in I. discriminate I.
    + eexists. split; [exact P|]. split; [reflexivity|].
      intros f' data mt ok [[=]|I].
      apply releaseResources_all_close in I. discriminate I.
  - eexists. split; [exact P|]. split; [reflexivity|].
    intros f' data mt ok [[=]|[]].
Qed.

Lemma failure_evidence_comes_from_own_page_witness :
  let s := snd (run (Before obliging_driver ∅ (scenario_with "UNKNOWN"))
                    (CustomWorld.constructor (Some (AttachH 7))) []) in
  let l := Ev (Launch (browserName ∅) (headless ∅)) true in
  exists b c p rest,
    newPage obliging_driver ([] ++ [l; Ev (NewContext b) true]) c = Ok p
    /\ trace_of (After obliging_driver (scenario_with "FAILED")) (this s) (log s)
       = Ev (Screenshot p true) (is_ok (screenshot obliging_driver (log s) p true)) :: rest
    /\ (forall f data mediaType ok,
          In (Ev (Attach f data mediaType) ok)
             (trace_of (After obliging_driver (scenario_with "FAILED")) (this s) (log s)) ->
          Some (AttachH 7) = Some f
          /\ screenshot obliging_driver (log s) p true = Ok data
          /\ mediaType = "image/png").
Proof.
  exact (failure_evidence_comes_from_own_page obliging_driver ∅ (scenario_with "UNKNOWN")
           (scenario_with "FAILED") (Some (AttachH 7)) [] eq_refl eq_refl).
Defined.
